(** * NBA player data repair: normalizers, bulk repair and profile extractor

    A shallow embedding of [fix_player_data.py].

    Text is a sequence of code points below U+0100 (one [ascii] per code
    point), with Python's [str] operations and SQLite's [LIKE] written
    out on those code points.  The [players] table is a list of rows in
    rowid order; console output is the list of the arguments of the
    successive [print] calls.  The HTTP fetch and the HTML parser are the
    environment: the extractor starts from the parsed document. *)

From Stdlib Require Import ZArith List String Ascii Bool Lia.
From Stdlib Require Import Numbers.DecimalString.
From Stdlib Require Import Sorted.
From Stdlib Require OrderedTypeEx.
Import ListNotations.
Local Open Scope string_scope.

(* ================================================================== *)
(** ** Python text primitives *)

Module Py.

Definition code (c : ascii) : N := N_of_ascii c.

Definition between (lo hi : N) (c : ascii) : bool :=
  (lo <=? code c)%N && (code c <=? hi)%N.

(** [str.isspace] on one code point; also the class [\s] of [re]. *)
Definition isspace (c : ascii) : bool :=
  between 9 13 c || between 28 32 c || (code c =? 133)%N || (code c =? 160)%N.

(** Decimal digits: the class [\d] of [re]. *)
Definition isdigit (c : ascii) : bool := between 48 57 c.

(** The class [\w] of [re]: alphanumerics and the underscore. *)
Definition isword (c : ascii) : bool :=
  between 48 57 c || between 65 90 c || (code c =? 95)%N || between 97 122 c
  || (code c =? 170)%N || between 178 179 c || (code c =? 181)%N
  || between 185 186 c || between 188 190 c || between 192 214 c
  || between 216 246 c || between 248 255 c.

(** [str.lower] on one code point. *)
Definition lower_char (c : ascii) : ascii :=
  if between 65 90 c || between 192 214 c || between 216 222 c
  then ascii_of_N (code c + 32) else c.

Fixpoint lower (s : string) : string :=
  match s with
  | EmptyString => EmptyString
  | String c s' => String (lower_char c) (lower s')
  end.

Fixpoint lstrip (s : string) : string :=
  match s with
  | EmptyString => EmptyString
  | String c s' => if isspace c then lstrip s' else s
  end.

Fixpoint rstrip (s : string) : string :=
  match s with
  | EmptyString => EmptyString
  | String c s' =>
      let r := rstrip s' in
      if isspace c && (r =? "") then "" else String c r
  end.

(** [s.strip()] *)
Definition strip (s : string) : string := rstrip (lstrip s).

(** [s.startswith(w)] *)
Fixpoint startswith (w s : string) : bool :=
  match w, s with
  | EmptyString, _ => true
  | String _ _, EmptyString => false
  | String a w', String b s' => (a =? b)%char && startswith w' s'
  end.

(** [w in s] *)
Fixpoint contains (w s : string) : bool :=
  startswith w s ||
  match s with
  | EmptyString => false
  | String _ s' => contains w s'
  end.

(** Truthiness of a [str]: [not s] holds for the empty string only. *)
Definition truthy (s : string) : bool := negb (s =? "").

Definition nl : string := String (ascii_of_N 10) "".

(** [str(n)] for an [int] and for a length. *)
Definition str_of_int (n : Z) : string := NilZero.string_of_int (Z.to_int n).
Definition str_of_len (n : nat) : string := NilZero.string_of_uint (Nat.to_uint n).

(** *** Values, exceptions and [int()] *)

(** A [float]: not-a-number, an infinity, or the finite value [m * 2^e]. *)
Inductive pyfloat : Type :=
| FNan
| FInf (negative : bool)
| FFinite (m e : Z).

(** The values [normalize_draft_round] is modelled on; [VOther] is an
    object with no integer conversion (a list, a dict, ...). *)
Inductive value : Type :=
| VNone
| VBool (b : bool)
| VInt (n : Z)
| VFloat (f : pyfloat)
| VStr (s : string)
| VOther.

Inductive exn : Type :=
  ValueError | TypeError | OverflowError | IndexError | HTTPError.

Inductive outcome (A : Type) : Type :=
| Ret (a : A)
| Raise (e : exn).
Arguments Ret {A} a.
Arguments Raise {A} e.

(** Whitespace that [int()] skips around a literal. *)
Definition int_space (c : ascii) : bool :=
  between 9 13 c || (code c =? 32)%N || (code c =? 133)%N || (code c =? 160)%N.

Fixpoint int_lstrip (s : string) : string :=
  match s with
  | EmptyString => EmptyString
  | String c s' => if int_space c then int_lstrip s' else s
  end.

Fixpoint int_rstrip (s : string) : string :=
  match s with
  | EmptyString => EmptyString
  | String c s' =>
      let r := int_rstrip s' in
      if int_space c && (r =? "") then "" else String c r
  end.

Definition digit_value (c : ascii) : Z := Z.of_N (code c) - 48.

(** Digits with single underscores between them; [prev] tells whether the
    previous character was a digit. *)
Fixpoint digits (s : string) (acc : Z) (prev : bool) : option Z :=
  match s with
  | EmptyString => if prev then Some acc else None
  | String c s' =>
      if isdigit c then digits s' (10 * acc + digit_value c)%Z true
      else if (c =? "_")%char && prev then digits s' acc false
      else None
  end.

(** [int(s)] for a [str] in base ten; [None] is [ValueError]. *)
Definition int_of_str (s : string) : option Z :=
  let t := int_rstrip (int_lstrip s) in
  match t with
  | EmptyString => None
  | String c d =>
      if (c =? "+")%char then digits d 0%Z false
      else if (c =? "-")%char then option_map Z.opp (digits d 0%Z false)
      else digits t 0%Z false
  end.

(** [int(f)] for a [float]: truncation toward zero. *)
Definition trunc (m e : Z) : Z :=
  if (0 <=? e)%Z then (m * 2 ^ e)%Z else Z.quot m (2 ^ (- e)).

(** [int(v)] *)
Definition int (v : value) : outcome Z :=
  match v with
  | VNone => Raise TypeError
  | VBool b => Ret (if b then 1 else 0)%Z
  | VInt n => Ret n
  | VFloat FNan => Raise ValueError
  | VFloat (FInf _) => Raise OverflowError
  | VFloat (FFinite m e) => Ret (trunc m e)
  | VStr s => match int_of_str s with
              | Some n => Ret n
              | None => Raise ValueError
              end
  | VOther => Raise TypeError
  end.

End Py.

(* ================================================================== *)
(** ** Field normalizers *)

(** [normalize_shoots]: the argument is a [str] or [None]. *)
Definition normalize_shoots (shoots_text : option string) : option string :=
  match shoots_text with
  | None => None
  | Some raw =>
      if negb (Py.truthy raw) then None
      else
        let shoots_text := Py.strip raw in
        if Py.contains "Left" shoots_text
           || Py.contains "left" (Py.lower shoots_text)
        then Some "Left"
        else if Py.contains "Right" shoots_text
                || Py.contains "right" (Py.lower shoots_text)
        then Some "Right"
        else Some shoots_text
  end.

(** [normalize_draft_round]: [ValueError] and [TypeError] from [int()] are
    caught, any other exception propagates. *)
Definition normalize_draft_round (round_num : Py.value)
  : Py.outcome (option Z) :=
  match round_num with
  | Py.VNone => Py.Ret None
  | _ =>
      match Py.int round_num with
      | Py.Ret round_int => Py.Ret (Some (Z.min round_int 2))
      | Py.Raise Py.ValueError => Py.Ret None
      | Py.Raise Py.TypeError => Py.Ret None
      | Py.Raise e => Py.Raise e
      end
  end.

(* ================================================================== *)
(** ** The [players] table and the SQL statements run on it *)

Module Sqlite.

(** [LIKE] folds the case of ASCII letters only. *)
Definition fold (c : ascii) : ascii :=
  if Py.between 65 90 c then ascii_of_N (Py.code c + 32) else c.

(** [s LIKE pat]: [%] stands for any run of characters, [_] for any one
    character, every other pattern character for itself up to [fold]. *)
Fixpoint like (pat : string) : string -> bool :=
  match pat with
  | EmptyString => fun s => match s with EmptyString => true | _ => false end
  | String p pat' =>
      if (p =? "%")%char then
        fix skip (s : string) : bool :=
          like pat' s ||
          match s with
          | EmptyString => false
          | String _ s' => skip s'
          end
      else
        fun s =>
          match s with
          | EmptyString => false
          | String c s' =>
              ((p =? "_")%char || (fold p =? fold c)%char) && like pat' s'
          end
  end.

End Sqlite.

Module Players.

(** Modelled from the spec: the schema of the [players] table, which is
    created outside this file.  Its columns are [player_id] (text, primary
    key), [full_name] (text), [shoots] (text, nullable), [draft_round],
    [draft_pick] and [draft_year] (integer, nullable) and [draft_team]
    (text, nullable).  A column holding NULL is [None]. *)
Record row : Type := mkRow {
  player_id : string;
  full_name : string;
  shoots : option string;
  draft_year : option Z;
  draft_round : option Z;
  draft_pick : option Z;
  draft_team : option string
}.

Definition table : Type := list row.

(** [WHERE draft_round > 2] *)
Definition round_gt_2 (r : row) : bool :=
  match draft_round r with
  | Some n => (2 <? n)%Z
  | None => false
  end.

(** [WHERE shoots LIKE pat AND shoots != hand]; NULL satisfies neither. *)
Definition shoots_like_not (pat hand : string) (r : row) : bool :=
  match shoots r with
  | Some s => Sqlite.like pat s && negb (s =? hand)
  | None => false
  end.

(** [WHERE draft_round IS NULL] *)
Definition round_is_null (r : row) : bool :=
  match draft_round r with
  | Some _ => false
  | None => true
  end.

Definition set_draft_round (v : option Z) (r : row) : row :=
  mkRow (player_id r) (full_name r) (shoots r) (draft_year r) v
        (draft_pick r) (draft_team r).

Definition set_shoots (v : option string) (r : row) : row :=
  mkRow (player_id r) (full_name r) v (draft_year r) (draft_round r)
        (draft_pick r) (draft_team r).

(** [SELECT player_id, full_name, col FROM players WHERE cond] followed by
    [fetchall()]. *)
Definition select {A} (col : row -> A) (cond : row -> bool) (db : table)
  : list (string * string * A) :=
  map (fun r => (player_id r, full_name r, col r)) (filter cond db).

(** [UPDATE players SET ... WHERE cond]: the new table and [rowcount]. *)
Definition update (set : row -> row) (cond : row -> bool) (db : table)
  : table * nat :=
  (map (fun r => if cond r then set r else r) db, List.length (filter cond db)).

(** [SELECT COUNT( * ) FROM players WHERE cond] *)
Definition count (cond : row -> bool) (db : table) : nat :=
  List.length (filter cond db).

End Players.

(** Formatting inside f-strings. *)
Definition fmt_int (v : option Z) : string :=
  match v with
  | Some n => Py.str_of_int n
  | None => "None"
  end.

Definition fmt_str (v : option string) : string :=
  match v with
  | Some s => s
  | None => "None"
  end.

(** Symbols of the messages that lie outside the modelled code points are
    carried as their UTF-8 bytes. *)
Definition check_mark : string := "✅".
Definition info_mark : string := "ℹ️".

Definition nonempty {A} (l : list A) : bool :=
  match l with
  | [] => false
  | _ :: _ => true
  end.

(** Step 1 of [fix_existing_data]: draft rounds above 2. *)
Definition fix_draft_rounds (db : Players.table) : Players.table * list string :=
  let invalid_rounds :=
    Players.select Players.draft_round Players.round_gt_2 db in
  if nonempty invalid_rounds then
    let found :=
      "   Found " ++ Py.str_of_len (List.length invalid_rounds)
      ++ " players with draft_round > 2:" in
    let lines :=
      map (fun '(player_id, name, round_num) =>
             "   - " ++ name ++ ": round " ++ fmt_int round_num ++ " -> 2")
          invalid_rounds in
    let '(db', rowcount) :=
      Players.update (Players.set_draft_round (Some 2%Z))
                     Players.round_gt_2 db in
    (db', found :: app lines
             ["   " ++ check_mark ++ " Updated " ++ Py.str_of_len rowcount
              ++ " players to round 2" ++ Py.nl])
  else
    (db, ["   " ++ check_mark ++ " No invalid draft rounds found" ++ Py.nl]).

Definition left_cond : Players.row -> bool :=
  Players.shoots_like_not "%Left%" "Left".
Definition right_cond : Players.row -> bool :=
  Players.shoots_like_not "%Right%" "Right".

(** Step 2 of [fix_existing_data]: both selects run first, then the two
    updates, each guarded by its own select. *)
Definition fix_shoots (db : Players.table) : Players.table * list string :=
  let left_issues := Players.select Players.shoots left_cond db in
  let right_issues := Players.select Players.shoots right_cond db in
  let '(db1, out1) :=
    if nonempty left_issues then
      let found :=
        "   Found " ++ Py.str_of_len (List.length left_issues)
        ++ " players with 'LeftRight' or similar:" in
      let lines :=
        map (fun '(player_id, name, shoots) =>
               "   - " ++ name ++ ": '" ++ fmt_str shoots ++ "' -> 'Left'")
            left_issues in
      let '(db', rowcount) :=
        Players.update (Players.set_shoots (Some "Left")) left_cond db in
      (db', found :: app lines
               ["   " ++ check_mark ++ " Updated " ++ Py.str_of_len rowcount
                ++ " players" ++ Py.nl])
    else (db, []) in
  let '(db2, out2) :=
    if nonempty right_issues then
      let found :=
        "   Found " ++ Py.str_of_len (List.length right_issues)
        ++ " players with 'RightLeft' or similar:" in
      let lines :=
        map (fun '(player_id, name, shoots) =>
               "   - " ++ name ++ ": '" ++ fmt_str shoots ++ "' -> 'Right'")
            right_issues in
      let '(db', rowcount) :=
        Players.update (Players.set_shoots (Some "Right")) right_cond db1 in
      (db', found :: app lines
               ["   " ++ check_mark ++ " Updated " ++ Py.str_of_len rowcount
                ++ " players" ++ Py.nl])
    else (db1, []) in
  let out3 :=
    if negb (nonempty left_issues) && negb (nonempty right_issues)
    then ["   " ++ check_mark ++ " No invalid shoots values found" ++ Py.nl]
    else [] in
  (db2, app out1 (app out2 out3)).

(** Step 3 of [fix_existing_data]: the count of NULL draft rounds. *)
Definition check_undrafted (db : Players.table) : list string :=
  let undrafted_count := Players.count Players.round_is_null db in
  ["   " ++ info_mark ++ "  " ++ Py.str_of_len undrafted_count
   ++ " undrafted players (NULL draft_round is correct)" ++ Py.nl].

(** [fix_existing_data]: the stored table before, the table after the
    commit and what was printed. *)
Definition fix_existing_data (db : Players.table)
  : Players.table * list string :=
  let '(db1, out1) := fix_draft_rounds db in
  let '(db2, out2) := fix_shoots db1 in
  (db2,
   List.concat
     [["=== Fixing Existing Data ===" ++ Py.nl;
       "1. Fixing draft rounds > 2..."];
      out1;
      ["2. Fixing shoots column..."];
      out2;
      ["3. Checking undrafted players..."];
      check_undrafted db2;
      ["=== Data Fix Complete ===" ++ Py.nl]]).

(* ================================================================== *)
(** ** Regular expressions of the extractor *)

Module Re.

(** The fragment of [re] the four patterns use; repetition is over one
    character class. *)
Inductive regex : Type :=
| Lit (w : string)                          (* literal text *)
| Star (p : ascii -> bool) (greedy : bool)  (* [c*] and [c*?] *)
| Times (n : nat) (p : ascii -> bool)       (* [c{n}] *)
| Cat (r1 r2 : regex).

Definition Plus (p : ascii -> bool) (greedy : bool) : regex :=
  Cat (Times 1 p) (Star p greedy).

(** [.] *)
Definition dot (c : ascii) : bool := negb (Py.code c =? 10)%N.
(** [\S] *)
Definition nonspace (c : ascii) : bool := negb (Py.isspace c).

Section Matcher.
Context {R : Type}.

Fixpoint lit (w s : string) (k : string -> option R) : option R :=
  match w with
  | EmptyString => k s
  | String a w' =>
      match s with
      | EmptyString => None
      | String b s' => if (a =? b)%char then lit w' s' k else None
      end
  end.

Fixpoint times (n : nat) (p : ascii -> bool) (s : string)
         (k : string -> option R) : option R :=
  match n with
  | O => k s
  | S n' =>
      match s with
      | EmptyString => None
      | String c s' => if p c then times n' p s' k else None
      end
  end.

(** Greedy repetition tries the longer match first, lazy repetition the
    shorter one; either falls back on the other when the rest fails. *)
Fixpoint star (p : ascii -> bool) (greedy : bool) (s : string)
         (k : string -> option R) : option R :=
  match s with
  | EmptyString => k s
  | String c s' =>
      if greedy then
        if p c then
          match star p greedy s' k with
          | Some r => Some r
          | None => k s
          end
        else k s
      else
        match k s with
        | Some r => Some r
        | None => if p c then star p greedy s' k else None
        end
  end.

Fixpoint run (r : regex) (s : string) (k : string -> option R) : option R :=
  match r with
  | Lit w => lit w s k
  | Star p greedy => star p greedy s k
  | Times n p => times n p s k
  | Cat r1 r2 => run r1 s (fun s1 => run r2 s1 k)
  end.
End Matcher.

(** A pattern with one capturing group: [before(group)after]. *)
Record pattern : Type := mkPattern {
  before : regex;
  group : regex;
  after : regex
}.

(** The text between the positions where [s1] and [s2] start. *)
Definition consumed (s1 s2 : string) : string :=
  substring 0 (String.length s1 - String.length s2) s1.

(** [re.match(pat, s).group(1)] *)
Definition match_at (pat : pattern) (s : string) : option string :=
  run (before pat) s (fun s1 =>
  run (group pat) s1 (fun s2 =>
  run (after pat) s2 (fun _ => Some (consumed s1 s2)))).

(** [re.search(pat, s)]: group 1 of the leftmost match. *)
Fixpoint search (pat : pattern) (s : string) : option string :=
  match match_at pat s with
  | Some g => Some g
  | None =>
      match s with
      | EmptyString => None
      | String _ s' => search pat s'
      end
  end.

(** [Shoots:\s*(\S+)] *)
Definition shoots_re : pattern :=
  mkPattern (Cat (Lit "Shoots:") (Star Py.isspace true))
            (Plus nonspace true)
            (Lit "").

(** [Draft:\s*(.+?),] *)
Definition draft_team_re : pattern :=
  mkPattern (Cat (Lit "Draft:") (Star Py.isspace true))
            (Plus dot false)
            (Lit ",").

(** [(\d+)\w*\s*round] *)
Definition round_re : pattern :=
  mkPattern (Lit "")
            (Plus Py.isdigit true)
            (Cat (Star Py.isword true)
                 (Cat (Star Py.isspace true) (Lit "round"))).

(** [(\d+)\w*\s*pick] *)
Definition pick_re : pattern :=
  mkPattern (Lit "")
            (Plus Py.isdigit true)
            (Cat (Star Py.isword true)
                 (Cat (Star Py.isspace true) (Lit "pick"))).

(** [(\d{4})\s*NBA\s*Draft] *)
Definition year_re : pattern :=
  mkPattern (Lit "")
            (Times 4 Py.isdigit)
            (Cat (Star Py.isspace true)
                 (Cat (Lit "NBA")
                      (Cat (Star Py.isspace true) (Lit "Draft")))).

End Re.

(* ================================================================== *)
(** ** The profile extractor *)

Module Scrape.

(** Printing and raising: what was printed so far survives an exception. *)
Definition io (A : Type) : Type := (list string * Py.outcome A)%type.

Definition ret {A} (a : A) : io A := ([], Py.Ret a).

Definition bind {A B} (m : io A) (f : A -> io B) : io B :=
  match m with
  | (out, Py.Ret a) => let '(out', r) := f a in (app out out', r)
  | (out, Py.Raise e) => (out, Py.Raise e)
  end.

Definition print (line : string) : io unit := ([line], Py.Ret tt).

Definition lift {A} (o : Py.outcome A) : io A := ([], o).

(** The parsed page: the text of the first [h1] (of its first [span] when
    it has one) and the texts of the [p] elements of the [div] with id
    [meta], each as [get_text(strip=True)] gives it. *)
Record heading : Type := mkHeading {
  name_span : option string;
  heading_text : string
}.

Record soup : Type := mkSoup {
  h1 : option heading;
  meta : option (list string)
}.

(** What [requests.get] hands back. *)
Inductive response : Type :=
| BadStatus
| Page (doc : soup).

(** The local variables of the extractor and the dictionary it returns. *)
Record info : Type := mkInfo {
  name : string;
  shoots : option string;
  draft_year : option Z;
  draft_round : option Z;
  draft_pick : option Z;
  draft_team : option string
}.

Definition set_shoots (v : option string) (i : info) : info :=
  mkInfo (name i) v (draft_year i) (draft_round i) (draft_pick i)
         (draft_team i).
Definition set_draft_year (v : option Z) (i : info) : info :=
  mkInfo (name i) (shoots i) v (draft_round i) (draft_pick i) (draft_team i).
Definition set_draft_round (v : option Z) (i : info) : info :=
  mkInfo (name i) (shoots i) (draft_year i) v (draft_pick i) (draft_team i).
Definition set_draft_pick (v : option Z) (i : info) : info :=
  mkInfo (name i) (shoots i) (draft_year i) (draft_round i) v (draft_team i).
Definition set_draft_team (v : option string) (i : info) : info :=
  mkInfo (name i) (shoots i) (draft_year i) (draft_round i) (draft_pick i) v.

End Scrape.

Notation "x <- m ;; k" := (Scrape.bind m (fun x => k))
  (at level 61, m at next level, right associativity).
Notation "m ;;; k" := (Scrape.bind m (fun _ => k))
  (at level 61, right associativity).

Definition BASE_URL : string := "https://www.basketball-reference.com".

(** The [Shoots:] part of the loop body. *)
Definition scan_shoots (text : string) (i : Scrape.info)
  : Scrape.io Scrape.info :=
  if Py.contains "Shoots:" text then
    match Re.search Re.shoots_re text with
    | Some g =>
        let raw_shoots := Py.strip g in
        let shoots := normalize_shoots (Some raw_shoots) in
        Scrape.print ("  Shoots: '" ++ raw_shoots ++ "' -> '"
                      ++ fmt_str shoots ++ "'") ;;;
        Scrape.ret (Scrape.set_shoots shoots i)
    | None => Scrape.ret i
    end
  else Scrape.ret i.

Definition scan_team (text : string) (i : Scrape.info)
  : Scrape.io Scrape.info :=
  match Re.search Re.draft_team_re text with
  | Some g => Scrape.ret (Scrape.set_draft_team (Some (Py.strip g)) i)
  | None => Scrape.ret i
  end.

Definition scan_round (text : string) (i : Scrape.info)
  : Scrape.io Scrape.info :=
  match Re.search Re.round_re text with
  | Some g =>
      raw_round <- Scrape.lift (Py.int (Py.VStr g)) ;;
      draft_round <- Scrape.lift (normalize_draft_round (Py.VInt raw_round)) ;;
      (if match draft_round with
          | Some d => negb (raw_round =? d)%Z
          | None => true
          end
       then Scrape.print ("  Draft Round: " ++ Py.str_of_int raw_round
                          ++ " -> " ++ fmt_int draft_round ++ " (capped)")
       else Scrape.print ("  Draft Round: " ++ fmt_int draft_round)) ;;;
      Scrape.ret (Scrape.set_draft_round draft_round i)
  | None => Scrape.ret i
  end.

Definition scan_pick (text : string) (i : Scrape.info)
  : Scrape.io Scrape.info :=
  match Re.search Re.pick_re text with
  | Some g =>
      draft_pick <- Scrape.lift (Py.int (Py.VStr g)) ;;
      Scrape.print ("  Draft Pick: " ++ Py.str_of_int draft_pick) ;;;
      Scrape.ret (Scrape.set_draft_pick (Some draft_pick) i)
  | None => Scrape.ret i
  end.

Definition scan_year (text : string) (i : Scrape.info)
  : Scrape.io Scrape.info :=
  match Re.search Re.year_re text with
  | Some g =>
      draft_year <- Scrape.lift (Py.int (Py.VStr g)) ;;
      Scrape.print ("  Draft Year: " ++ Py.str_of_int draft_year) ;;;
      Scrape.ret (Scrape.set_draft_year (Some draft_year) i)
  | None => Scrape.ret i
  end.

Definition report_team (i : Scrape.info) : Scrape.io unit :=
  match Scrape.draft_team i with
  | Some t =>
      if Py.truthy t then Scrape.print ("  Draft Team: " ++ t)
      else Scrape.ret tt
  | None => Scrape.ret tt
  end.

(** The [Draft:] part of the loop body. *)
Definition scan_draft (text : string) (i : Scrape.info)
  : Scrape.io Scrape.info :=
  if Py.contains "Draft:" text then
    if Py.contains "Undrafted" text || Py.contains "undrafted" text then
      Scrape.print "  Draft: Undrafted (will store as NULL)" ;;;
      Scrape.ret (Scrape.set_draft_year None
                 (Scrape.set_draft_team None
                 (Scrape.set_draft_pick None
                 (Scrape.set_draft_round None i))))
    else
      i1 <- scan_team text i ;;
      i2 <- scan_round text i1 ;;
      i3 <- scan_pick text i2 ;;
      i4 <- scan_year text i3 ;;
      report_team i4 ;;;
      Scrape.ret i4
  else Scrape.ret i.

(** One turn of [for paragraph in paragraphs]. *)
Definition scan_paragraph (text : string) (i : Scrape.info)
  : Scrape.io Scrape.info :=
  i1 <- scan_shoots text i ;;
  scan_draft text i1.

Fixpoint scan_paragraphs (paragraphs : list string) (i : Scrape.info)
  : Scrape.io Scrape.info :=
  match paragraphs with
  | [] => Scrape.ret i
  | text :: rest =>
      i' <- scan_paragraph text i ;;
      scan_paragraphs rest i'
  end.

(** The name: the span's text when the heading has one, else its own. *)
Definition get_name (doc : Scrape.soup) : string :=
  match Scrape.h1 doc with
  | Some heading =>
      match Scrape.name_span heading with
      | Some span_text => span_text
      | None => Scrape.heading_text heading
      end
  | None => ""
  end.

(** The part of [test_scrape_player] that follows the parse. *)
Definition extract (doc : Scrape.soup) : Scrape.io Scrape.info :=
  let start := Scrape.mkInfo (get_name doc) None None None None None in
  match Scrape.meta doc with
  | Some paragraphs => scan_paragraphs paragraphs start
  | None => Scrape.ret start
  end.

(** [test_scrape_player]: [resp] is what the fetch of the player's page
    yields; the pause before the fetch leaves no trace here. *)
Definition test_scrape_player (player_id : string) (resp : Scrape.response)
  : Scrape.io Scrape.info :=
  first_letter <- Scrape.lift match player_id with
                              | EmptyString => Py.Raise Py.IndexError
                              | String c _ => Py.Ret (String c "")
                              end ;;
  let url := BASE_URL ++ "/players/" ++ first_letter ++ "/" ++ player_id
             ++ ".html" in
  Scrape.print ("Testing scrape for player: " ++ player_id) ;;;
  Scrape.print ("URL: " ++ url) ;;;
  doc <- Scrape.lift match resp with
                     | Scrape.BadStatus => Py.Raise Py.HTTPError
                     | Scrape.Page doc => Py.Ret doc
                     end ;;
  extract doc.

(* ================================================================== *)
(** ** The script *)

(** [s * n] *)
Fixpoint str_mul (s : string) (n : nat) : string :=
  match n with
  | O => ""
  | S n' => s ++ str_mul s n'
  end.

(** The order of [ORDER BY] on a nullable column: NULL first. *)
Definition null_first {A} (cmp : A -> A -> comparison) (x y : option A)
  : comparison :=
  match x, y with
  | None, None => Eq
  | None, Some _ => Lt
  | Some _, None => Gt
  | Some a, Some b => cmp a b
  end.

(** One more row with key [k] in the groups found so far. *)
Fixpoint bump {K} (cmp : K -> K -> comparison) (k : K)
         (groups : list (K * nat)) : list (K * nat) :=
  match groups with
  | [] => [(k, 1)]
  | (k', n) :: rest =>
      match cmp k k' with
      | Eq => (k', S n) :: rest
      | Lt => (k, 1) :: groups
      | Gt => (k', n) :: bump cmp k rest
      end
  end.

(** [SELECT col, COUNT( * ) ... GROUP BY col ORDER BY col] on the values of
    the column. *)
Definition group_count {K} (cmp : K -> K -> comparison) (keys : list K)
  : list (K * nat) :=
  fold_right (bump cmp) [] keys.

Definition shoots_distribution (db : Players.table)
  : list (option string * nat) :=
  group_count (null_first String.compare) (map Players.shoots db).

Definition draft_round_distribution (db : Players.table)
  : list (option Z * nat) :=
  group_count (null_first Z.compare) (map Players.draft_round db).

(** [row[0] if row[0] else 'NULL']: the empty text is falsy too. *)
Definition shoots_label (k : option string) : string :=
  match k with
  | Some s => if Py.truthy s then s else "NULL"
  | None => "NULL"
  end.

(** [row[0] if row[0] else 'NULL (undrafted)']: zero is falsy too. *)
Definition draft_round_label (k : option Z) : string :=
  match k with
  | Some n => if (n =? 0)%Z then "NULL (undrafted)" else Py.str_of_int n
  | None => "NULL (undrafted)"
  end.

Definition shoots_report (db : Players.table) : list string :=
  map (fun '(k, n) => "  " ++ shoots_label k ++ ": " ++ Py.str_of_len n)
      (shoots_distribution db).

Definition draft_round_report (db : Players.table) : list string :=
  map (fun '(k, n) =>
         "  Round " ++ draft_round_label k ++ ": " ++ Py.str_of_len n)
      (draft_round_distribution db).

(** [SELECT player_id FROM players WHERE draft_round IS NULL LIMIT 1] and
    [fetchone()]: the first such row in table order. *)
Definition first_undrafted (db : Players.table) : option string :=
  match filter Players.round_is_null db with
  | [] => None
  | r :: _ => Some (Players.player_id r)
  end.

Fixpoint prints (lines : list string) : Scrape.io unit :=
  match lines with
  | [] => Scrape.ret tt
  | line :: rest => Scrape.print line ;;; prints rest
  end.

(** The three test scrapes of [main]. *)
Definition run_tests (db : Players.table) (web : string -> Scrape.response)
  : Scrape.io unit :=
  Scrape.print ("=== Testing Updated Scraping Logic ===" ++ Py.nl) ;;;
  Scrape.print "Test 1: Player with potential shoots issue" ;;;
  test_scrape_player "bryanko01" (web "bryanko01") ;;;
  Scrape.print "" ;;;
  Scrape.print "Test 2: Undrafted player" ;;;
  match first_undrafted db with
  | Some player_id =>
      test_scrape_player player_id (web player_id) ;;; Scrape.ret tt
  | None => Scrape.ret tt
  end ;;;
  Scrape.print "" ;;;
  Scrape.print "Test 3: First round pick" ;;;
  test_scrape_player "jamesle01" (web "jamesle01") ;;;
  Scrape.print "" ;;;
  Scrape.print "=== All Tests Complete ===".

(** The final validation of [main]. *)
Definition final_validation (db : Players.table) : Scrape.io unit :=
  Scrape.print (Py.nl ++ "=== Final Validation ===" ++ Py.nl) ;;;
  Scrape.print "Shoots distribution:" ;;;
  prints (shoots_report db) ;;;
  Scrape.print "" ;;;
  Scrape.print "Draft round distribution:" ;;;
  prints (draft_round_report db) ;;;
  Scrape.print (Py.nl ++ check_mark ++ " Script complete!").

(** [main]: the stored table before; [web] gives what the fetch of a
    player's page yields.  The result is the stored table at the end and
    what was printed and raised. *)
Definition main (db : Players.table) (web : string -> Scrape.response)
  : Players.table * Scrape.io unit :=
  let '(db', fix_out) := fix_existing_data db in
  (db',
   Scrape.print "NBA Player Data Fix Script" ;;;
   Scrape.print (str_mul "=" 50) ;;;
   Scrape.print "" ;;;
   prints fix_out ;;;
   run_tests db' web ;;;
   final_validation db').

(* ================================================================== *)
(** ** Vocabulary of the properties *)

(** The capital of a lower-case ASCII letter. *)
Definition capital (a : ascii) : ascii := ascii_of_N (Py.code a - 32).

(** [b] is the letter [a] in either case. *)
Definition either_case (a b : ascii) : Prop := b = a \/ b = capital a.

(** [s] begins with the lower-case word [w], letter case aside. *)
Fixpoint spelled_at (w s : string) : Prop :=
  match w with
  | EmptyString => True
  | String a w' =>
      match s with
      | EmptyString => False
      | String b s' => either_case a b /\ spelled_at w' s'
      end
  end.

(** [s] contains the lower-case word [w] as a substring in any letter
    case. *)
Definition occurs_nocase (w s : string) : Prop :=
  exists pre post, s = pre ++ post /\ spelled_at w post.

(** All characters of [w] are lower-case ASCII letters. *)
Fixpoint lowercase_word (w : string) : bool :=
  match w with
  | EmptyString => true
  | String a w' => Py.between 97 122 a && lowercase_word w'
  end.

(** The row at position [i] of the table. *)
Definition row_at (db : Players.table) (i : nat) : option Players.row :=
  nth_error db i.

(** No character of [w] is white space. *)
Fixpoint spaceless (w : string) : bool :=
  match w with
  | EmptyString => true
  | String a w' => negb (Py.isspace a) && spaceless w'
  end.

(** The character [c] occurs in [s]. *)
Fixpoint char_in (c : ascii) (s : string) : Prop :=
  match s with
  | EmptyString => False
  | String a s' => a = c \/ char_in c s'
  end.

(** Characters an integer literal can be made of: digits, the underscore,
    a sign and the white space [int()] skips. *)
Definition literal_char (c : ascii) : bool :=
  Py.isdigit c || (c =? "_")%char || (c =? "+")%char || (c =? "-")%char
  || Py.int_space c.

(** A text that is not numeric: some character cannot be part of an
    integer literal. *)
Definition non_numeric (s : string) : Prop :=
  exists c, char_in c s /\ literal_char c = false.




(** The three updates of the repair, row by row. *)
Definition cap_round (r : Players.row) : Players.row :=
  if Players.round_gt_2 r then Players.set_draft_round (Some 2%Z) r else r.
Definition to_left (r : Players.row) : Players.row :=
  if left_cond r then Players.set_shoots (Some "Left") r else r.
Definition to_right (r : Players.row) : Players.row :=
  if right_cond r then Players.set_shoots (Some "Right") r else r.
Definition repaired (r : Players.row) : Players.row :=
  to_right (to_left (cap_round r)).

(** The line step 1 prints for a row it found. *)
Definition round_line (r : Players.row) : string :=
  "   - " ++ Players.full_name r ++ ": round "
  ++ fmt_int (Players.draft_round r) ++ " -> 2".

(** What a run prints when it finds nothing to repair. *)
Definition quiet_report (db : Players.table) : list string :=
  ["=== Fixing Existing Data ===" ++ Py.nl;
   "1. Fixing draft rounds > 2...";
   "   " ++ check_mark ++ " No invalid draft rounds found" ++ Py.nl;
   "2. Fixing shoots column...";
   "   " ++ check_mark ++ " No invalid shoots values found" ++ Py.nl;
   "3. Checking undrafted players..."]
  ++ check_undrafted db ++ ["=== Data Fix Complete ===" ++ Py.nl].

(** A stored row with both defects, and a table holding it. *)
Definition kobe : Players.row :=
  Players.mkRow "bryanko01" "Kobe Bryant" (Some "RightLeft") (Some 1996%Z)
                (Some 5%Z) (Some 13%Z) (Some "Lakers").

Definition sample_table : Players.table :=
  [Players.mkRow "jamesle01" "LeBron James" (Some "Right") (Some 2003%Z)
                 (Some 1%Z) (Some 1%Z) (Some "Cavaliers");
   kobe;
   Players.mkRow "wallabe01" "Ben Wallace" (Some "RIGHT") None None None
                 None].

(** Every character of [s] is in the class [p]. *)
Fixpoint all_chars (p : ascii -> bool) (s : string) : bool :=
  match s with
  | EmptyString => true
  | String c s' => p c && all_chars p s'
  end.

(** The texts a regular expression can span. *)
Fixpoint spans (r : Re.regex) (m : string) : Prop :=
  match r with
  | Re.Lit w => m = w
  | Re.Star p _ => all_chars p m = true
  | Re.Times n p => String.length m = n /\ all_chars p m = true
  | Re.Cat r1 r2 => exists m1 m2, m = m1 ++ m2 /\ spans r1 m1 /\ spans r2 m2
  end.

(** The four draft fields of the extractor are all null. *)
Definition undrafted (i : Scrape.info) : Prop :=
  Scrape.draft_round i = None /\ Scrape.draft_pick i = None
  /\ Scrape.draft_team i = None /\ Scrape.draft_year i = None.

(** The block of the draft scenario. *)
Definition lakers_block : string :=
  "Draft: Lakers, 1st round, 13th pick, 1996 NBA Draft".

(** The extractor's variables before the first paragraph. *)
Definition blank (name : string) : Scrape.info :=
  Scrape.mkInfo name None None None None None.

(** The result of [normalize_draft_round] as an argument. *)
Definition as_value (r : option Z) : Py.value :=
  match r with
  | Some n => Py.VInt n
  | None => Py.VNone
  end.

(** The columns no statement of the repair assigns. *)
Definition untouched (r : Players.row)
  : string * string * option Z * option Z * option string :=
  (Players.player_id r, Players.full_name r, Players.draft_year r,
   Players.draft_pick r, Players.draft_team r).

(** Lines of the second shoots pass. *)
Definition right_found_line (k : nat) : string :=
  "   Found " ++ Py.str_of_len k ++ " players with 'RightLeft' or similar:".
Definition updated_line (m : nat) : string :=
  "   " ++ check_mark ++ " Updated " ++ Py.str_of_len m ++ " players" ++ Py.nl.

Definition right_line (r : Players.row) : string :=
  "   - " ++ Players.full_name r ++ ": '" ++ fmt_str (Players.shoots r)
  ++ "' -> 'Right'".

(** The two lines [test_scrape_player] prints before the fetch. *)
Definition scrape_banner (player_id : string) : list string :=
  match player_id with
  | EmptyString => []
  | String c _ =>
      ["Testing scrape for player: " ++ player_id;
       "URL: " ++ BASE_URL ++ "/players/" ++ String c "" ++ "/" ++ player_id
       ++ ".html"]
  end.

(** Ranges of the numbers the extractor can return. *)
Definition draft_numbers_in_range (i : Scrape.info) : Prop :=
  (forall d, Scrape.draft_round i = Some d -> (0 <= d <= 2)%Z)
  /\ (forall p, Scrape.draft_pick i = Some p -> (0 <= p)%Z)
  /\ (forall y, Scrape.draft_year i = Some y -> (0 <= y <= 9999)%Z).

(** A shooting hand the extractor can return: null, "Left", "Right", or a
    token without white space that holds neither word. *)
Definition hand_token (v : option string) : Prop :=
  match v with
  | None => True
  | Some r =>
      r <> "" /\ spaceless r = true
      /\ (r = "Left" \/ r = "Right"
          \/ (~ occurs_nocase "left" r /\ ~ occurs_nocase "right" r))
  end.

(** A paragraph with neither marker. *)
Definition unmarked (text : string) : Prop :=
  Py.contains "Shoots:" text = false /\ Py.contains "Draft:" text = false.

(** The counts listed for the key [k]. *)
Definition total_of {K} (eq_dec : forall a b : K, {a = b} + {a <> b})
           (k : K) (groups : list (K * nat)) : nat :=
  list_sum (map snd (filter (fun e => if eq_dec k (fst e) then true else false)
                            groups)).

(** The keys of the groups strictly ascend. *)
Definition ascending {K} (cmp : K -> K -> comparison)
           (groups : list (K * nat)) : Prop :=
  StronglySorted (fun x y => cmp (fst x) (fst y) = Lt) groups.

Definition hand_eq_dec (a b : option string) : {a = b} + {a <> b}.
Proof. decide equality. apply string_dec. Defined.

Definition round_eq_dec (a b : option Z) : {a = b} + {a <> b}.
Proof. decide equality. apply Z.eq_dec. Defined.




(** What [main] prints up to the first fetch. *)
Definition opening_lines (db : Players.table) : list string :=
  app ["NBA Player Data Fix Script"; str_mul "=" 50; ""]
      (app (snd (fix_existing_data db))
           ["=== Testing Updated Scraping Logic ===" ++ Py.nl;
            "Test 1: Player with potential shoots issue"]).


(* ================================================================== *)
(** ** Characters *)

Lemma code_inj (a b : ascii) : Py.code a = Py.code b -> a = b.
Proof.
  unfold Py.code. intros H.
  rewrite <- (ascii_N_embedding a), <- (ascii_N_embedding b), H.
  reflexivity.
Qed.

Lemma code_bound (a : ascii) : (Py.code a < 256)%N.
Proof. apply N_ascii_bounded. Qed.

Lemma code_of_N (n : N) : (n < 256)%N -> Py.code (ascii_of_N n) = n.
Proof. apply N_ascii_embedding. Qed.

Lemma between_iff lo hi c :
  Py.between lo hi c = true <-> (lo <= Py.code c <= hi)%N.
Proof.
  unfold Py.between. rewrite andb_true_iff, !N.leb_le. tauto.
Qed.

Lemma between_false_iff lo hi c :
  Py.between lo hi c = false <-> (Py.code c < lo \/ hi < Py.code c)%N.
Proof.
  unfold Py.between. rewrite andb_false_iff, !N.leb_gt. tauto.
Qed.

Ltac char_arith :=
  repeat match goal with
         | H : Py.between _ _ _ = true |- _ => apply between_iff in H
         | H : Py.between _ _ _ = false |- _ => apply between_false_iff in H
         | H : (_ || _) = true |- _ => apply orb_true_iff in H; destruct H
         | H : (_ || _) = false |- _ => apply orb_false_iff in H; destruct H
         | H : (_ =? _)%N = true |- _ => apply N.eqb_eq in H
         | H : (_ =? _)%N = false |- _ => apply N.eqb_neq in H
         end.

Lemma capital_code a :
  Py.between 97 122 a = true -> Py.code (capital a) = (Py.code a - 32)%N.
Proof.
  intros H. apply between_iff in H. unfold capital.
  apply code_of_N. lia.
Qed.

(** [str.lower] sends exactly the two cases of a letter to that letter. *)
Lemma lower_char_letter a b :
  Py.between 97 122 a = true ->
  Py.lower_char b = a <-> either_case a b.
Proof.
  intros Ha. pose proof (capital_code a Ha) as Hc.
  apply between_iff in Ha. pose proof (code_bound b) as Hb.
  unfold either_case, Py.lower_char.
  destruct (Py.between 65 90 b || Py.between 192 214 b
            || Py.between 216 222 b) eqn:E.
  - char_arith; split.
    + intros <-. right. apply code_inj. rewrite Hc, code_of_N; lia.
    + intros [-> | ->]; [lia|]. apply code_inj.
      rewrite Hc. rewrite code_of_N; lia.
    + intros <-. rewrite code_of_N in Ha; lia.
    + intros [-> | ->]; [lia|]. rewrite Hc in H. lia.
    + intros <-. rewrite code_of_N in Ha; lia.
    + intros [-> | ->]; [lia|]. rewrite Hc in H. lia.
  - char_arith. split.
    + intros ->. now left.
    + intros [-> | ->]; [reflexivity|]. rewrite Hc in *. lia.
Qed.


Lemma isspace_lower_char c : Py.isspace (Py.lower_char c) = Py.isspace c.
Proof. destruct c as [[] [] [] [] [] [] [] []]; reflexivity. Qed.

(* ================================================================== *)
(** ** Strings *)

Lemma append_nil_r (s : string) : s ++ "" = s.
Proof. induction s; simpl; congruence. Qed.

Lemma append_assoc (a b c : string) : (a ++ b) ++ c = a ++ b ++ c.
Proof. induction a; simpl; congruence. Qed.

Lemma length_append (a b : string) :
  String.length (a ++ b) = String.length a + String.length b.
Proof. induction a; simpl; congruence. Qed.

Lemma lower_append (a b : string) :
  Py.lower (a ++ b) = Py.lower a ++ Py.lower b.
Proof. induction a; simpl; congruence. Qed.



Lemma contains_empty (s : string) : Py.contains "" s = true.
Proof. destruct s; reflexivity. Qed.

Lemma startswith_lower (w s : string) :
  Py.startswith w s = true -> Py.startswith (Py.lower w) (Py.lower s) = true.
Proof.
  revert s. induction w as [|a w IH]; intros [|b s]; simpl; try easy.
  rewrite !andb_true_iff, !Ascii.eqb_eq. intros [-> H]. auto.
Qed.

Lemma contains_lower (w s : string) :
  Py.contains w s = true -> Py.contains (Py.lower w) (Py.lower s) = true.
Proof.
  induction s as [|c s IH]; simpl; rewrite !orb_true_iff.
  - intros [H | H]; [|discriminate]. left.
    now apply (startswith_lower w "").
  - intros [H | H]; [left | right; auto].
    now apply (startswith_lower w (String c s)).
Qed.

(** *** Occurrence in any letter case *)

Lemma startswith_lower_spelled (w s : string) :
  lowercase_word w = true ->
  Py.startswith w (Py.lower s) = true <-> spelled_at w s.
Proof.
  revert s. induction w as [|a w IH]; intros s Hw; simpl.
  - tauto.
  - simpl in Hw. apply andb_true_iff in Hw as [Ha Hw].
    destruct s as [|b s]; simpl.
    + split; [discriminate | tauto].
    + rewrite andb_true_iff, Ascii.eqb_eq, (IH s Hw).
      rewrite <- (lower_char_letter a b Ha). split.
      * intros [H1 H2]. split; [now symmetry | assumption].
      * intros [H1 H2]. split; [now symmetry | assumption].
Qed.

Lemma occurs_nocase_nil (w : string) :
  occurs_nocase w "" <-> spelled_at w "".
Proof.
  split.
  - intros [pre [post [H Hs]]]. destruct pre; [|discriminate].
    simpl in H. now subst post.
  - intros H. now exists "", "".
Qed.

Lemma occurs_nocase_cons (w : string) (c : ascii) (s : string) :
  occurs_nocase w (String c s) <->
  spelled_at w (String c s) \/ occurs_nocase w s.
Proof.
  split.
  - intros [pre [post [H Hs]]]. destruct pre as [|d pre]; simpl in H.
    + left. now subst post.
    + right. injection H as _ ->. now exists pre, post.
  - intros [H | [pre [post [-> Hs]]]].
    + now exists "", (String c s).
    + now exists (String c pre), post.
Qed.

(** The test ['w' in s.lower()] finds [w] in any letter case. *)
Lemma contains_lower_occurs (w s : string) :
  lowercase_word w = true ->
  Py.contains w (Py.lower s) = true <-> occurs_nocase w s.
Proof.
  intros Hw. induction s as [|c s IH].
  - rewrite occurs_nocase_nil. simpl. rewrite orb_false_r.
    apply (startswith_lower_spelled w "" Hw).
  - rewrite occurs_nocase_cons. simpl Py.lower. simpl Py.contains.
    rewrite orb_true_iff, IH.
    now rewrite <- (startswith_lower_spelled w (String c s) Hw).
Qed.

(** *** [strip] *)

Lemma lower_eq_nil (s : string) : (Py.lower s =? "") = (s =? "").
Proof. destruct s; reflexivity. Qed.

Lemma lower_lstrip (s : string) :
  Py.lower (Py.lstrip s) = Py.lstrip (Py.lower s).
Proof.
  induction s as [|c s IH]; simpl; [reflexivity|].
  rewrite isspace_lower_char. destruct (Py.isspace c); [assumption|reflexivity].
Qed.

Lemma lower_rstrip (s : string) :
  Py.lower (Py.rstrip s) = Py.rstrip (Py.lower s).
Proof.
  induction s as [|c s IH]; simpl; [reflexivity|].
  rewrite isspace_lower_char, <- IH, lower_eq_nil.
  destruct (Py.isspace c && (Py.rstrip s =? "")); reflexivity.
Qed.

Lemma lower_strip (s : string) :
  Py.lower (Py.strip s) = Py.strip (Py.lower s).
Proof. unfold Py.strip. now rewrite lower_rstrip, lower_lstrip. Qed.

Lemma startswith_nil_r (w : string) :
  Py.startswith w "" = true -> w = "".
Proof. destruct w; [reflexivity | discriminate]. Qed.

Lemma startswith_rstrip (w s : string) :
  spaceless w = true ->
  Py.startswith w (Py.rstrip s) = Py.startswith w s.
Proof.
  revert w. induction s as [|c s IH]; intros w Hw; simpl; [reflexivity|].
  destruct w as [|a w]; [now destruct (Py.isspace c && _)|].
  simpl in Hw. apply andb_true_iff in Hw as [Ha Hw].
  destruct (Py.isspace c && (Py.rstrip s =? "")) eqn:E; simpl.
  - apply andb_true_iff in E as [Hc _].
    destruct (Ascii.eqb_spec a c) as [->|]; [|reflexivity].
    rewrite Hc in Ha. discriminate.
  - now rewrite IH.
Qed.

Lemma contains_rstrip (w s : string) :
  spaceless w = true ->
  Py.contains w (Py.rstrip s) = Py.contains w s.
Proof.
  intros Hw. induction s as [|c s IH]; [reflexivity|].
  pose proof (startswith_rstrip w (String c s) Hw) as Hs.
  simpl in Hs |- *.
  destruct (Py.isspace c && (Py.rstrip s =? "")) eqn:E.
  - apply andb_true_iff in E as [_ E]. apply String.eqb_eq in E.
    rewrite E in IH. rewrite <- IH, <- Hs. simpl.
    now rewrite orb_false_r, orb_diag.
  - simpl. now rewrite IH, Hs.
Qed.

Lemma contains_lstrip (w s : string) :
  spaceless w = true -> w <> "" ->
  Py.contains w (Py.lstrip s) = Py.contains w s.
Proof.
  intros Hw Hne. induction s as [|c s IH]; [reflexivity|].
  simpl. destruct (Py.isspace c) eqn:Hc; [|reflexivity].
  rewrite IH. destruct w as [|a w]; [congruence|].
  simpl in Hw. apply andb_true_iff in Hw as [Ha _].
  simpl. destruct (Ascii.eqb_spec a c) as [->|]; [|reflexivity].
  rewrite Hc in Ha. discriminate.
Qed.

(** Trimming does not change whether a word without white space occurs. *)
Lemma contains_strip (w s : string) :
  spaceless w = true -> w <> "" ->
  Py.contains w (Py.strip s) = Py.contains w s.
Proof.
  intros Hw Hne. unfold Py.strip.
  now rewrite contains_rstrip, contains_lstrip.
Qed.

(* ================================================================== *)
(** ** [int()] on text *)

Lemma digits_chars (s : string) :
  forall acc prev n c,
    Py.digits s acc prev = Some n -> char_in c s ->
    Py.isdigit c || (c =? "_")%char = true.
Proof.
  induction s as [|a s IH]; intros acc prev n c H Hin; simpl in *; [easy|].
  destruct (Py.isdigit a) eqn:Ha.
  - destruct Hin as [<- | Hin]; [now rewrite Ha | eauto].
  - destruct ((a =? "_")%char && prev) eqn:Hu; [|discriminate].
    apply andb_true_iff in Hu as [Hu _].
    destruct Hin as [<- | Hin]; [now rewrite Hu, orb_true_r | eauto].
Qed.

Lemma char_in_int_lstrip (c : ascii) (s : string) :
  char_in c s -> Py.int_space c = false -> char_in c (Py.int_lstrip s).
Proof.
  intros Hin Hc. induction s as [|a s IH]; simpl in *; [easy|].
  destruct (Py.int_space a) eqn:Ha; simpl; [|assumption].
  destruct Hin as [-> | Hin]; [congruence | auto].
Qed.

Lemma char_in_int_rstrip (c : ascii) (s : string) :
  char_in c s -> Py.int_space c = false -> char_in c (Py.int_rstrip s).
Proof.
  intros Hin Hc. induction s as [|a s IH]; simpl in *; [easy|].
  destruct (Py.int_space a && (Py.int_rstrip s =? "")) eqn:E.
  - apply andb_true_iff in E as [Ha E]. apply String.eqb_eq in E.
    destruct Hin as [-> | Hin]; [congruence|].
    specialize (IH Hin). now rewrite E in IH.
  - simpl. destruct Hin as [-> | Hin]; auto.
Qed.

(** A text holding a character no literal contains does not parse. *)
Lemma int_of_str_non_numeric (s : string) :
  non_numeric s -> Py.int_of_str s = None.
Proof.
  intros [c [Hin Hc]]. unfold literal_char in Hc.
  repeat (apply orb_false_iff in Hc as [Hc ?]).
  assert (Hd : Py.isdigit c || (c =? "_")%char = false)
    by (now apply orb_false_iff).
  unfold Py.int_of_str.
  pose proof (char_in_int_rstrip c _
                (char_in_int_lstrip c s Hin ltac:(assumption))
                ltac:(assumption)) as Ht.
  destruct (Py.int_rstrip (Py.int_lstrip s)) as [|a d]; [reflexivity|].
  assert (Hnone : forall t acc, char_in c t -> Py.digits t acc false = None).
  { intros t acc Hint. destruct (Py.digits t acc false) eqn:E; [|reflexivity].
    rewrite (digits_chars _ _ _ _ _ E Hint) in Hd. discriminate. }
  destruct (Ascii.eqb_spec a "+") as [-> | Hplus].
  - destruct Ht as [<- | Ht]; [discriminate | now apply Hnone].
  - destruct (Ascii.eqb_spec a "-") as [-> | Hminus].
    + destruct Ht as [<- | Ht]; [discriminate|]. now rewrite Hnone.
    + now apply Hnone.
Qed.

(* ================================================================== *)
(** ** The normalizers *)

Lemma normalize_shoots_unfold (s : string) :
  s <> "" ->
  normalize_shoots (Some s) =
  if Py.contains "Left" (Py.strip s)
     || Py.contains "left" (Py.lower (Py.strip s))
  then Some "Left"
  else if Py.contains "Right" (Py.strip s)
          || Py.contains "right" (Py.lower (Py.strip s))
  then Some "Right"
  else Some (Py.strip s).
Proof.
  intros H. unfold normalize_shoots, Py.truthy.
  apply String.eqb_neq in H. now rewrite H.
Qed.

(** The two tests of one branch amount to an occurrence of the word in
    any letter case in the untrimmed text. *)
Lemma hand_test (cap w s : string) :
  lowercase_word w = true -> spaceless w = true -> w <> "" ->
  Py.lower cap = w ->
  Py.contains cap (Py.strip s) || Py.contains w (Py.lower (Py.strip s)) = true
  <-> occurs_nocase w s.
Proof.
  intros Hw Hs Hne Hcap.
  rewrite <- (contains_lower_occurs w s Hw).
  rewrite <- (contains_strip w (Py.lower s) Hs Hne), <- lower_strip.
  rewrite orb_true_iff. split; [|auto].
  intros [H | H]; [|assumption].
  rewrite <- Hcap. now apply contains_lower.
Qed.

Lemma left_test (s : string) :
  Py.contains "Left" (Py.strip s)
  || Py.contains "left" (Py.lower (Py.strip s)) = true
  <-> occurs_nocase "left" s.
Proof. apply hand_test; easy. Qed.

Lemma right_test (s : string) :
  Py.contains "Right" (Py.strip s)
  || Py.contains "right" (Py.lower (Py.strip s)) = true
  <-> occurs_nocase "right" s.
Proof. apply hand_test; easy. Qed.

Lemma occurs_nocase_nonempty (w s : string) :
  w <> "" -> occurs_nocase w s -> s <> "".
Proof.
  intros Hw [pre [post [-> Hs]]] H.
  destruct pre; [|discriminate]. simpl in H. subst post.
  destruct w; [congruence | exact Hs].
Qed.

(** C5. [normalize_shoots]: a text holding both "left" and "right" in any
    letter case gives "Left"; a text holding "right" in any letter case
    and no "left" gives "Right"; the empty text and the absent value give
    null; any other text is returned trimmed. *)
Theorem normalize_shoots_cases (s : string) :
  (occurs_nocase "left" s -> occurs_nocase "right" s ->
   normalize_shoots (Some s) = Some "Left") /\
  (occurs_nocase "right" s -> ~ occurs_nocase "left" s ->
   normalize_shoots (Some s) = Some "Right") /\
  normalize_shoots (Some "") = None /\
  normalize_shoots None = None /\
  (s <> "" -> ~ occurs_nocase "left" s -> ~ occurs_nocase "right" s ->
   normalize_shoots (Some s) = Some (Py.strip s)).
Proof.
  repeat split; try reflexivity.
  - intros Hl _.
    rewrite normalize_shoots_unfold
      by (apply (occurs_nocase_nonempty "left"); easy).
    apply left_test in Hl. now rewrite Hl.
  - intros Hr Hl.
    rewrite normalize_shoots_unfold
      by (apply (occurs_nocase_nonempty "right"); easy).
    apply right_test in Hr. rewrite Hr.
    destruct (Py.contains "Left" (Py.strip s)
              || Py.contains "left" (Py.lower (Py.strip s))) eqn:E;
      [|reflexivity].
    apply left_test in E. contradiction.
  - intros Hne Hl Hr. rewrite normalize_shoots_unfold by assumption.
    destruct (Py.contains "Left" (Py.strip s)
              || Py.contains "left" (Py.lower (Py.strip s))) eqn:El.
    + apply left_test in El. contradiction.
    + destruct (Py.contains "Right" (Py.strip s)
                || Py.contains "right" (Py.lower (Py.strip s))) eqn:Er;
        [|reflexivity].
      apply right_test in Er. contradiction.
Qed.

Lemma occurs_left_RIGHTleft : occurs_nocase "left" " RIGHTleft ".
Proof.
  exists " RIGHT", "left ". split; [reflexivity|].
  simpl. unfold either_case. intuition.
Qed.

Lemma occurs_right_RIGHTleft : occurs_nocase "right" " RIGHTleft ".
Proof.
  exists " ", "RIGHTleft ". split; [reflexivity|].
  simpl. unfold either_case. repeat split; now right.
Qed.

Lemma normalize_shoots_cases_witness :
  normalize_shoots (Some " RIGHTleft ") = Some "Left".
Proof.
  exact (proj1 (normalize_shoots_cases " RIGHTleft ")
               occurs_left_RIGHTleft occurs_right_RIGHTleft).
Defined.

Lemma normalize_draft_round_int (n : Z) :
  normalize_draft_round (Py.VInt n) = Py.Ret (Some (Z.min n 2)).
Proof. reflexivity. Qed.

Lemma normalize_draft_round_str (s : string) :
  normalize_draft_round (Py.VStr s) =
  Py.Ret (option_map (fun n => Z.min n 2) (Py.int_of_str s)).
Proof.
  unfold normalize_draft_round. simpl.
  now destruct (Py.int_of_str s).
Qed.

(** C6. [normalize_draft_round]: an integer at most 2 is returned
    unchanged and an integer above 2 is returned as 2; input that is not
    numeric (a text that does not parse as an integer, an object with no
    integer conversion) gives null and absent input gives null; a text
    that parses gives the smaller of the parsed value and 2. *)
Theorem normalize_draft_round_cases :
  (forall n : Z, (n <= 2)%Z ->
     normalize_draft_round (Py.VInt n) = Py.Ret (Some n)) /\
  (forall n : Z, (2 < n)%Z ->
     normalize_draft_round (Py.VInt n) = Py.Ret (Some 2%Z)) /\
  (forall s, non_numeric s ->
     normalize_draft_round (Py.VStr s) = Py.Ret None) /\
  (forall s, Py.int_of_str s = None ->
     normalize_draft_round (Py.VStr s) = Py.Ret None) /\
  (forall s n, Py.int_of_str s = Some n ->
     normalize_draft_round (Py.VStr s) = Py.Ret (Some (Z.min n 2))) /\
  normalize_draft_round Py.VOther = Py.Ret None /\
  normalize_draft_round Py.VNone = Py.Ret None.
Proof.
  repeat split.
  - intros n H. rewrite normalize_draft_round_int. f_equal. f_equal. lia.
  - intros n H. rewrite normalize_draft_round_int. f_equal. f_equal. lia.
  - intros s H. rewrite normalize_draft_round_str.
    now rewrite int_of_str_non_numeric.
  - intros s H. now rewrite normalize_draft_round_str, H.
  - intros s n H. now rewrite normalize_draft_round_str, H.
Qed.

Lemma non_numeric_first : non_numeric "first".
Proof. exists "f"%char. split; [now left | reflexivity]. Qed.

Lemma normalize_draft_round_cases_witness :
  normalize_draft_round (Py.VInt 1) = Py.Ret (Some 1%Z) /\
  normalize_draft_round (Py.VInt 7) = Py.Ret (Some 2%Z) /\
  normalize_draft_round (Py.VStr "first") = Py.Ret None /\
  normalize_draft_round (Py.VStr "1 2") = Py.Ret None /\
  normalize_draft_round (Py.VStr " 12 ") = Py.Ret (Some 2%Z).
Proof.
  destruct normalize_draft_round_cases as [H1 [H2 [H3 [H4 [H5 _]]]]].
  split; [apply (H1 1%Z); lia|].
  split; [apply (H2 7%Z); lia|].
  split; [apply (H3 "first"), non_numeric_first|].
  split; [apply (H4 "1 2"); reflexivity|].
  apply (H5 " 12 " 12%Z); reflexivity.
Defined.

(** C2, as stated, fails: the result for the integer 0 is 0, which lies
    outside the range from 1 to 2. *)
Lemma normalize_draft_round_below_range :
  normalize_draft_round (Py.VInt 0) = Py.Ret (Some 0%Z) /\
  ~ (forall v,
       normalize_draft_round v = Py.Ret None \/
       exists n, normalize_draft_round v = Py.Ret (Some n) /\ (1 <= n <= 2)%Z).
Proof.
  split; [reflexivity|].
  intros H. destruct (H (Py.VInt 0)) as [H0 | [n [H0 Hn]]].
  - discriminate.
  - rewrite normalize_draft_round_int in H0. injection H0 as <-. lia.
Qed.

(** C2, amended. Whenever [normalize_draft_round] returns, the result is
    null or an integer at most 2: the smaller of the converted input and
    2, with no lower bound. *)
Theorem normalize_draft_round_at_most_2 (v : Py.value) (r : option Z) :
  normalize_draft_round v = Py.Ret r ->
  r = None \/
  exists n, r = Some n /\ (n <= 2)%Z /\
            exists k, Py.int v = Py.Ret k /\ n = Z.min k 2.
Proof.
  unfold normalize_draft_round. intros H.
  destruct v; try (injection H as <-; now left).
  all: destruct (Py.int _) as [k|e] eqn:E.
  all: try (destruct e; (discriminate || (injection H as <-; now left))).
  all: injection H as <-; right; exists (Z.min k 2);
    repeat split; try lia; now exists k.
Qed.

Lemma normalize_draft_round_at_most_2_witness :
  Some (-3)%Z = None \/
  exists n, Some (-3)%Z = Some n /\ (n <= 2)%Z /\
            exists k, Py.int (Py.VStr "-3") = Py.Ret k /\ n = Z.min k 2.
Proof.
  apply (normalize_draft_round_at_most_2 (Py.VStr "-3") (Some (-3)%Z)).
  reflexivity.
Defined.

(** C10, as stated, fails: the conversion of an infinite float raises
    [OverflowError], which the function does not catch. *)
Lemma normalize_draft_round_raises_on_inf :
  normalize_draft_round (Py.VFloat (Py.FInf false))
  = Py.Raise Py.OverflowError /\
  ~ (forall v, exists r, normalize_draft_round v = Py.Ret r).
Proof.
  split; [reflexivity|].
  intros H. destruct (H (Py.VFloat (Py.FInf false))) as [r Hr].
  discriminate.
Qed.

(** C10, amended. On every input other than an infinite float
    [normalize_draft_round] returns: a [ValueError] or [TypeError] of the
    integer conversion is caught and gives null, and on an integer, which
    is what the extractor passes, the result is the smaller of it and 2. *)
Theorem normalize_draft_round_returns (v : Py.value) :
  (forall b, v <> Py.VFloat (Py.FInf b)) ->
  (exists r, normalize_draft_round v = Py.Ret r) /\
  (forall e, Py.int v = Py.Raise e ->
     (e = Py.ValueError \/ e = Py.TypeError) /\
     normalize_draft_round v = Py.Ret None) /\
  (forall n, v = Py.VInt n ->
     normalize_draft_round v = Py.Ret (Some (Z.min n 2))).
Proof.
  intros Hinf. split; [|split].
  - destruct v as [| b | n | f | s |]; try (eexists; reflexivity).
    + destruct f as [| b | m e]; try (eexists; reflexivity).
      now destruct (Hinf b).
    + rewrite normalize_draft_round_str. eexists; reflexivity.
  - intros e He. destruct v as [| b | n | f | s |]; simpl in He;
      try discriminate; try (injection He as <-; auto).
    + destruct f as [| b | m k]; try discriminate.
      * injection He as <-. auto.
      * now destruct (Hinf b).
    + rewrite normalize_draft_round_str.
      destruct (Py.int_of_str s); [discriminate|].
      injection He as <-. auto.
  - intros n ->. reflexivity.
Qed.

Lemma normalize_draft_round_returns_witness :
  (exists r, normalize_draft_round (Py.VFloat Py.FNan) = Py.Ret r) /\
  (forall e, Py.int (Py.VFloat Py.FNan) = Py.Raise e ->
     (e = Py.ValueError \/ e = Py.TypeError) /\
     normalize_draft_round (Py.VFloat Py.FNan) = Py.Ret None) /\
  (forall n, Py.VFloat Py.FNan = Py.VInt n ->
     normalize_draft_round (Py.VFloat Py.FNan) = Py.Ret (Some (Z.min n 2))).
Proof.
  apply (normalize_draft_round_returns (Py.VFloat Py.FNan)).
  intros b. discriminate.
Defined.

(* ================================================================== *)
(** ** [LIKE] *)










(* ================================================================== *)
(** ** The table after the repair *)

Lemma nonempty_select {A} (col : Players.row -> A) cond db :
  nonempty (Players.select col cond db) = nonempty (filter cond db).
Proof. unfold Players.select. now destruct (filter cond db). Qed.

Lemma nonempty_false {A} (l : list A) : nonempty l = false -> l = [].
Proof. destruct l; [reflexivity | discriminate]. Qed.

Lemma filter_nil_false {A} (f : A -> bool) (l : list A) :
  filter f l = [] -> forall x, In x l -> f x = false.
Proof.
  induction l as [|a l IH]; simpl; [easy|].
  destruct (f a) eqn:E; [discriminate|].
  intros H x [<- | Hin]; auto.
Qed.

Lemma filter_false_nil {A} (f : A -> bool) (l : list A) :
  (forall x, In x l -> f x = false) -> filter f l = [].
Proof.
  induction l as [|a l IH]; simpl; [easy|].
  intros H. rewrite (H a) by now left. auto.
Qed.

Lemma map_unless {A} (f : A -> bool) (g : A -> A) (l : list A) :
  (forall x, In x l -> f x = false) ->
  map (fun x => if f x then g x else x) l = l.
Proof.
  induction l as [|a l IH]; simpl; [easy|].
  intros H. rewrite (H a) by now left. f_equal. auto.
Qed.

(** An update guarded by its own select rewrites the same rows as the
    bare update. *)
Lemma guarded_update {A} (col : Players.row -> A) set cond db :
  (if nonempty (Players.select col cond db)
   then fst (Players.update set cond db) else db)
  = map (fun r => if cond r then set r else r) db.
Proof.
  rewrite nonempty_select.
  destruct (nonempty (filter cond db)) eqn:E; [reflexivity|].
  symmetry. apply map_unless, filter_nil_false. now apply nonempty_false.
Qed.

Lemma fix_draft_rounds_table (db : Players.table) :
  fst (fix_draft_rounds db) = map cap_round db.
Proof.
  unfold cap_round.
  rewrite <- (guarded_update Players.draft_round).
  unfold fix_draft_rounds.
  now destruct (nonempty (Players.select _ _ db)).
Qed.

Lemma shoots_Left (r : Players.row) :
  Players.shoots r = Some "Left" ->
  left_cond r = false /\ right_cond r = false.
Proof.
  unfold left_cond, right_cond, Players.shoots_like_not.
  intros ->. split; reflexivity.
Qed.

Lemma shoots_Right (r : Players.row) :
  Players.shoots r = Some "Right" ->
  left_cond r = false /\ right_cond r = false.
Proof.
  unfold left_cond, right_cond, Players.shoots_like_not.
  intros ->. split; reflexivity.
Qed.

Lemma right_cond_to_left (r : Players.row) :
  right_cond r = false -> right_cond (to_left r) = false.
Proof.
  unfold to_left. destruct (left_cond r); [|easy].
  intros _. now apply shoots_Left.
Qed.

Lemma fix_shoots_table (db : Players.table) :
  fst (fix_shoots db) = map to_right (map to_left db).
Proof.
  assert (Hl : nonempty (filter left_cond db) = false ->
               map to_left db = db).
  { intros E. apply map_unless, filter_nil_false. now apply nonempty_false. }
  assert (Hr : nonempty (filter right_cond db) = false ->
               map to_right (map to_left db) = map to_left db).
  { intros E. apply nonempty_false in E. apply map_unless. intros r' Hin.
    apply in_map_iff in Hin as [r [<- Hin]].
    apply right_cond_to_left. now apply (filter_nil_false _ _ E). }
  unfold fix_shoots. rewrite !nonempty_select.
  destruct (nonempty (filter left_cond db)) eqn:El,
           (nonempty (filter right_cond db)) eqn:Er;
    cbn [Players.update fst].
  - reflexivity.
  - now rewrite Hr.
  - rewrite <- (Hl eq_refl) at 1. reflexivity.
  - now rewrite Hr, Hl.
Qed.

(** The stored table after [fix_existing_data]: every row repaired, in
    place. *)
Lemma fix_existing_data_table (db : Players.table) :
  fst (fix_existing_data db) = map repaired db.
Proof.
  unfold fix_existing_data.
  pose proof (fix_draft_rounds_table db) as H1.
  destruct (fix_draft_rounds db) as [db1 out1]. simpl in H1. subst db1.
  pose proof (fix_shoots_table (map cap_round db)) as H2.
  destruct (fix_shoots (map cap_round db)) as [db2 out2]. simpl in H2.
  subst db2. simpl. now rewrite !map_map.
Qed.

Lemma row_at_repaired (db : Players.table) (i : nat) (r : Players.row) :
  row_at db i = Some r ->
  row_at (fst (fix_existing_data db)) i = Some (repaired r).
Proof.
  unfold row_at. intros H.
  now rewrite fix_existing_data_table, nth_error_map, H.
Qed.

Lemma shoots_cap_round (r : Players.row) :
  Players.shoots (cap_round r) = Players.shoots r.
Proof. unfold cap_round. now destruct (Players.round_gt_2 r). Qed.

Lemma left_cond_cap_round (r : Players.row) :
  left_cond (cap_round r) = left_cond r.
Proof.
  unfold left_cond, Players.shoots_like_not. now rewrite shoots_cap_round.
Qed.

Lemma right_cond_cap_round (r : Players.row) :
  right_cond (cap_round r) = right_cond r.
Proof.
  unfold right_cond, Players.shoots_like_not. now rewrite shoots_cap_round.
Qed.

(** The final shooting hand of a row, from its stored one. *)
Lemma shoots_repaired (r : Players.row) :
  Players.shoots (repaired r) =
  if left_cond r then Some "Left"
  else if right_cond r then Some "Right"
  else Players.shoots r.
Proof.
  unfold repaired, to_right, to_left.
  rewrite left_cond_cap_round.
  destruct (left_cond r) eqn:El.
  - now rewrite (proj2 (shoots_Left (Players.set_shoots (Some "Left")
                                       (cap_round r)) eq_refl)).
  - rewrite right_cond_cap_round.
    destruct (right_cond r); [reflexivity | apply shoots_cap_round].
Qed.

Lemma draft_round_repaired (r : Players.row) :
  Players.draft_round (repaired r) =
  if Players.round_gt_2 r then Some 2%Z else Players.draft_round r.
Proof.
  unfold repaired, to_right, to_left, cap_round.
  destruct (Players.round_gt_2 r);
    repeat match goal with
           | |- context [if ?c then _ else _] => destruct c
           end; reflexivity.
Qed.

Lemma player_id_repaired (r : Players.row) :
  Players.player_id (repaired r) = Players.player_id r
  /\ Players.full_name (repaired r) = Players.full_name r.
Proof.
  unfold repaired, to_right, to_left, cap_round.
  repeat match goal with
         | |- context [if ?c then _ else _] => destruct c
         end; split; reflexivity.
Qed.

(** No repaired row is selected by any of the three conditions. *)
Lemma repaired_clean (r : Players.row) :
  Players.round_gt_2 (repaired r) = false
  /\ left_cond (repaired r) = false
  /\ right_cond (repaired r) = false.
Proof.
  split.
  - unfold Players.round_gt_2 at 1. rewrite draft_round_repaired.
    destruct (Players.round_gt_2 r) eqn:E; [reflexivity | exact E].
  - pose proof (shoots_repaired r) as H.
    destruct (left_cond r) eqn:El; [now apply shoots_Left|].
    destruct (right_cond r) eqn:Er; [now apply shoots_Right|].
    unfold left_cond, right_cond, Players.shoots_like_not in *.
    rewrite H. auto.
Qed.

(* ================================================================== *)
(** ** The bulk repair *)



Lemma in_select {A} (col : Players.row -> A) cond db r :
  In r db -> cond r = true ->
  In (Players.player_id r, Players.full_name r, col r)
     (Players.select col cond db).
Proof.
  intros Hin Hc. unfold Players.select.
  apply (in_map (fun r => (Players.player_id r, Players.full_name r, col r))).
  apply filter_In. auto.
Qed.

(** A run on a table that no condition selects changes nothing and prints
    the quiet report. *)
Lemma quiet_run (db : Players.table) :
  filter Players.round_gt_2 db = [] ->
  filter left_cond db = [] ->
  filter right_cond db = [] ->
  fix_existing_data db = (db, quiet_report db).
Proof.
  intros H1 H2 H3.
  unfold fix_existing_data, fix_draft_rounds.
  rewrite nonempty_select, H1. cbn [nonempty].
  unfold fix_shoots. rewrite !nonempty_select, H2, H3. reflexivity.
Qed.

(** C1, as stated, fails: the stored value "RightLeft" ends as "Left". *)
Lemma rightleft_row_ends_left :
  map Players.shoots (fst (fix_existing_data [kobe])) = [Some "Left"] /\
  ~ (forall db i r r',
       row_at db i = Some r -> Players.shoots r = Some "RightLeft" ->
       row_at (fst (fix_existing_data db)) i = Some r' ->
       Players.shoots r' = Some "Right").
Proof.
  split; [vm_compute; reflexivity|].
  intros H.
  specialize (H [kobe] 0 kobe (repaired kobe) eq_refl eq_refl
                (row_at_repaired [kobe] 0 kobe eq_refl)).
  vm_compute in H. discriminate.
Qed.

(** C1, amended. A row whose shoots value is "RightLeft" before the run
    holds "Left" after it: the Left update rewrites it first, and the
    Right update, whose condition is evaluated on the updated table, no
    longer matches it. *)
Theorem rightleft_row_repaired (db : Players.table) (i : nat)
        (r : Players.row) :
  row_at db i = Some r ->
  Players.shoots r = Some "RightLeft" ->
  exists r',
    row_at (fst (fix_existing_data db)) i = Some r'
    /\ Players.shoots r' = Some "Left"
    /\ Players.player_id r' = Players.player_id r
    /\ right_cond r' = false.
Proof.
  intros Hrow Hs. exists (repaired r).
  assert (Hl : left_cond r = true).
  { unfold left_cond, Players.shoots_like_not. now rewrite Hs. }
  assert (Hfinal : Players.shoots (repaired r) = Some "Left")
    by (now rewrite shoots_repaired, Hl).
  repeat split.
  - now apply row_at_repaired.
  - exact Hfinal.
  - apply player_id_repaired.
  - now apply shoots_Left.
Qed.

Lemma rightleft_row_repaired_witness :
  exists r',
    row_at (fst (fix_existing_data sample_table)) 1 = Some r'
    /\ Players.shoots r' = Some "Left"
    /\ Players.player_id r' = Players.player_id kobe
    /\ right_cond r' = false.
Proof.
  apply (rightleft_row_repaired sample_table 1 kobe); reflexivity.
Defined.

(** C4. After one run of [fix_existing_data] a second run finds no row in
    the draft-round select nor in either shoots select, executes no
    update, leaves the table as it is and prints the quiet report. *)
Theorem fix_existing_data_fixed_point (db : Players.table) :
  let db' := fst (fix_existing_data db) in
  Players.select Players.draft_round Players.round_gt_2 db' = []
  /\ Players.select Players.shoots left_cond db' = []
  /\ Players.select Players.shoots right_cond db' = []
  /\ fix_draft_rounds db' = (db', snd (fix_draft_rounds db'))
  /\ fix_existing_data db' = (db', quiet_report db').
Proof.
  intros db'.
  assert (Hclean : forall r', In r' db' ->
            Players.round_gt_2 r' = false /\ left_cond r' = false
            /\ right_cond r' = false).
  { intros r' Hin. subst db'. rewrite fix_existing_data_table in Hin.
    apply in_map_iff in Hin as [r [<- _]]. apply repaired_clean. }
  assert (H1 : filter Players.round_gt_2 db' = [])
    by (apply filter_false_nil; intros; now apply Hclean).
  assert (H2 : filter left_cond db' = [])
    by (apply filter_false_nil; intros; now apply Hclean).
  assert (H3 : filter right_cond db' = [])
    by (apply filter_false_nil; intros; now apply Hclean).
  unfold Players.select. rewrite H1, H2, H3.
  repeat split.
  - unfold fix_draft_rounds. rewrite nonempty_select, H1. reflexivity.
  - now apply quiet_run.
Qed.




Lemma fix_draft_rounds_found (db : Players.table) :
  filter Players.round_gt_2 db <> [] ->
  fix_draft_rounds db =
  (map cap_round db,
   ("   Found " ++ Py.str_of_len (List.length (filter Players.round_gt_2 db))
    ++ " players with draft_round > 2:")
   :: app (map round_line (filter Players.round_gt_2 db))
          ["   " ++ check_mark ++ " Updated "
           ++ Py.str_of_len (List.length (filter Players.round_gt_2 db))
           ++ " players to round 2" ++ Py.nl]).
Proof.
  intros Hne. unfold fix_draft_rounds. rewrite nonempty_select.
  destruct (filter Players.round_gt_2 db) as [|b bad] eqn:E; [congruence|].
  cbn [nonempty Players.update]. rewrite E.
  unfold Players.select. rewrite E, length_map, map_map. reflexivity.
Qed.

Lemma fix_existing_data_output (db : Players.table) :
  exists post,
    snd (fix_existing_data db) =
    app ["=== Fixing Existing Data ===" ++ Py.nl;
         "1. Fixing draft rounds > 2..."]
        (app (snd (fix_draft_rounds db)) post).
Proof.
  unfold fix_existing_data.
  destruct (fix_draft_rounds db) as [db1 out1].
  destruct (fix_shoots db1) as [db2 out2].
  eexists. cbn [snd List.concat]. reflexivity.
Qed.

(** C3, as stated, fails: for the row of "bryanko01", found with draft
    round 5, no printed line holds the player identifier. *)
Lemma fix_existing_data_omits_player_id :
  forallb (fun line => negb (Py.contains "bryanko01" line))
          (snd (fix_existing_data [kobe])) = true /\
  ~ (forall db r n,
       In r db -> Players.draft_round r = Some n -> (2 < n)%Z ->
       exists line,
         In line (snd (fix_existing_data db))
         /\ Py.contains (Players.player_id r) line = true
         /\ Py.contains (Players.full_name r) line = true
         /\ Py.contains (Py.str_of_int n) line = true).
Proof.
  assert (Hnone : forallb (fun line => negb (Py.contains "bryanko01" line))
                          (snd (fix_existing_data [kobe])) = true)
    by (vm_compute; reflexivity).
  split; [exact Hnone|].
  intros H.
  destruct (H [kobe] kobe 5%Z (or_introl eq_refl) eq_refl eq_refl)
    as [line [Hin [Hid _]]].
  rewrite forallb_forall in Hnone. specialize (Hnone line Hin).
  change (Players.player_id kobe) with "bryanko01" in Hid.
  rewrite Hid in Hnone. discriminate.
Qed.

(** C3, amended. In step 1, for every row with draft_round above 2 the
    procedure prints a line with that row's name and the offending value
    (the player identifier is selected but not printed), then sets the
    draft_round of exactly those rows to 2 in one update and prints the
    number of rows affected. *)
Theorem fix_draft_rounds_report (db : Players.table) (r : Players.row)
        (n : Z) :
  In r db -> Players.draft_round r = Some n -> (2 < n)%Z ->
  let found := filter Players.round_gt_2 db in
  In (Players.player_id r, Players.full_name r, Some n)
     (Players.select Players.draft_round Players.round_gt_2 db)
  /\ fix_draft_rounds db =
     (map cap_round db,
      ("   Found " ++ Py.str_of_len (List.length found)
       ++ " players with draft_round > 2:")
      :: app (map round_line found)
             ["   " ++ check_mark ++ " Updated "
              ++ Py.str_of_len (List.length found)
              ++ " players to round 2" ++ Py.nl])
  /\ In r found
  /\ round_line r
     = "   - " ++ Players.full_name r ++ ": round " ++ Py.str_of_int n
       ++ " -> 2"
  /\ In (round_line r) (snd (fix_existing_data db))
  /\ Players.draft_round (cap_round r) = Some 2%Z
  /\ (forall r', Players.round_gt_2 r' = false -> cap_round r' = r').
Proof.
  intros Hin Hn Hgt found.
  assert (Hc : Players.round_gt_2 r = true).
  { unfold Players.round_gt_2. rewrite Hn. now apply Z.ltb_lt. }
  assert (Hf : In r found) by (apply filter_In; auto).
  assert (Hne : found <> []) by (intros E; rewrite E in Hf; exact Hf).
  pose proof (fix_draft_rounds_found db Hne) as Hrun.
  repeat split.
  - rewrite <- Hn. now apply in_select.
  - exact Hrun.
  - exact Hf.
  - unfold round_line. now rewrite Hn.
  - destruct (fix_existing_data_output db) as [post ->].
    rewrite Hrun. cbn [snd]. apply in_or_app. right.
    apply in_or_app. left. right. apply in_or_app. left.
    now apply in_map.
  - unfold cap_round. now rewrite Hc.
  - intros r' Hr'. unfold cap_round. now rewrite Hr'.
Qed.

Lemma fix_draft_rounds_report_witness :
  In (round_line kobe) (snd (fix_existing_data sample_table))
  /\ round_line kobe = "   - Kobe Bryant: round 5 -> 2"
  /\ map Players.draft_round (fst (fix_draft_rounds sample_table))
     = [Some 1%Z; Some 2%Z; None].
Proof.
  destruct (fix_draft_rounds_report sample_table kobe 5%Z
              (or_intror (or_introl eq_refl)) eq_refl eq_refl)
    as [_ [Hrun [_ [Hline [Hin _]]]]].
  split; [exact Hin|]. split; [exact Hline|].
  rewrite Hrun. reflexivity.
Defined.

(* ================================================================== *)
(** ** The matcher *)

Section MatcherSound.
Context {R : Type}.
Implicit Types (k : string -> option R) (x : R).

Lemma lit_sound w s k x :
  Re.lit w s k = Some x -> exists s2, s = w ++ s2 /\ k s2 = Some x.
Proof.
  revert s. induction w as [|a w IH]; intros s H; simpl in H.
  - now exists s.
  - destruct s as [|b s]; [discriminate|].
    destruct (Ascii.eqb_spec a b) as [->|]; [|discriminate].
    destruct (IH s H) as [s2 [-> Hk]]. now exists s2.
Qed.

Lemma times_sound n p s k x :
  Re.times n p s k = Some x ->
  exists m s2, s = m ++ s2 /\ String.length m = n
               /\ all_chars p m = true /\ k s2 = Some x.
Proof.
  revert s. induction n as [|n IH]; intros s H; simpl in H.
  - now exists "", s.
  - destruct s as [|c s]; [discriminate|].
    destruct (p c) eqn:Hc; [|discriminate].
    destruct (IH s H) as [m [s2 [-> [Hlen [Hall Hk]]]]].
    exists (String c m), s2. simpl. rewrite Hc, Hlen. auto.
Qed.

Lemma star_sound p greedy s k x :
  Re.star p greedy s k = Some x ->
  exists m s2, s = m ++ s2 /\ all_chars p m = true /\ k s2 = Some x.
Proof.
  induction s as [|c s IH]; intros H; simpl in H.
  - now exists "", "".
  - assert (Hmore : p c = true -> Re.star p greedy s k = Some x ->
              exists m s2, String c s = m ++ s2
                           /\ all_chars p m = true /\ k s2 = Some x).
    { intros Hc H'. destruct (IH H') as [m [s2 [-> [Hall Hk]]]].
      exists (String c m), s2. simpl. rewrite Hc. auto. }
    assert (Hstop : k (String c s) = Some x ->
              exists m s2, String c s = m ++ s2
                           /\ all_chars p m = true /\ k s2 = Some x)
      by (intros H'; now exists "", (String c s)).
    destruct greedy.
    + destruct (p c) eqn:Hc; [|auto].
      destruct (Re.star p true s k) eqn:E; [|auto].
      injection H as ->. auto.
    + destruct (k (String c s)) eqn:E; [injection H as ->; auto|].
      destruct (p c) eqn:Hc; [auto | discriminate].
Qed.

(** Whatever [run] hands to its continuation is the rest of the text
    after a prefix the expression spans. *)
Lemma run_sound r : forall s k x,
  Re.run r s k = Some x ->
  exists m s2, s = m ++ s2 /\ spans r m /\ k s2 = Some x.
Proof.
  induction r as [w | p greedy | n p | r1 IH1 r2 IH2]; intros s k x H;
    simpl in H.
  - destruct (lit_sound _ _ _ _ H) as [s2 [-> Hk]]. now exists w, s2.
  - destruct (star_sound _ _ _ _ _ H) as [m [s2 [-> [Hall Hk]]]].
    now exists m, s2.
  - destruct (times_sound _ _ _ _ _ H) as [m [s2 [-> [Hl [Hall Hk]]]]].
    exists m, s2. simpl. auto.
  - destruct (IH1 _ _ _ H) as [m1 [s1 [-> [Hs1 H1]]]].
    destruct (IH2 _ _ _ H1) as [m2 [s2 [-> [Hs2 H2]]]].
    exists (m1 ++ m2), s2. rewrite append_assoc.
    repeat split; trivial. now exists m1, m2.
Qed.
End MatcherSound.

Lemma substring_append (m s : string) :
  substring 0 (String.length m) (m ++ s) = m.
Proof.
  induction m as [|c m IH]; simpl.
  - now destruct s.
  - now rewrite IH.
Qed.

Lemma consumed_append (m s : string) : Re.consumed (m ++ s) s = m.
Proof.
  unfold Re.consumed. rewrite length_append.
  replace (String.length m + String.length s - String.length s)
    with (String.length m) by lia.
  apply substring_append.
Qed.

(** Group 1 of a match is spanned by the group of the pattern. *)
Lemma match_at_sound (pat : Re.pattern) (s g : string) :
  Re.match_at pat s = Some g -> spans (Re.group pat) g.
Proof.
  unfold Re.match_at. intros H.
  destruct (run_sound _ _ _ _ H) as [b [s1 [-> [_ H1]]]].
  destruct (run_sound _ _ _ _ H1) as [m [s2 [-> [Hg H2]]]].
  destruct (run_sound _ _ _ _ H2) as [a [s3 [-> [_ H3]]]].
  injection H3 as <-. now rewrite consumed_append.
Qed.

Lemma search_sound (pat : Re.pattern) (s g : string) :
  Re.search pat s = Some g -> spans (Re.group pat) g.
Proof.
  induction s as [|c s IH]; simpl.
  - destruct (Re.match_at pat "") eqn:E; [|discriminate].
    intros H. injection H as <-. now apply (match_at_sound pat "").
  - destruct (Re.match_at pat (String c s)) eqn:E; [|exact IH].
    intros H. injection H as <-. now apply (match_at_sound pat (String c s)).
Qed.

(** *** Captured digits convert *)

Lemma isdigit_not_int_space (c : ascii) :
  Py.isdigit c = true -> Py.int_space c = false.
Proof.
  unfold Py.isdigit, Py.int_space. intros H. apply between_iff in H.
  repeat (apply orb_false_iff; split);
    try (apply between_false_iff); try (apply N.eqb_neq); lia.
Qed.

Lemma isdigit_not_sign (c : ascii) :
  Py.isdigit c = true -> (c =? "+")%char = false /\ (c =? "-")%char = false.
Proof.
  unfold Py.isdigit. intros H. apply between_iff in H.
  split; apply Ascii.eqb_neq; intros ->; unfold Py.code in H; simpl in H;
    lia.
Qed.

Lemma int_rstrip_digits (s : string) :
  all_chars Py.isdigit s = true -> Py.int_rstrip s = s.
Proof.
  induction s as [|c s IH]; simpl; [reflexivity|].
  intros H. apply andb_true_iff in H as [Hc Hs].
  now rewrite (isdigit_not_int_space c Hc), IH.
Qed.

Lemma digits_all (s : string) : forall acc prev,
  all_chars Py.isdigit s = true -> s <> "" \/ prev = true ->
  exists n, Py.digits s acc prev = Some n.
Proof.
  induction s as [|c s IH]; intros acc prev Hall Hne; simpl.
  - destruct Hne as [Hne | ->]; [congruence | eauto].
  - simpl in Hall. apply andb_true_iff in Hall as [Hc Hs].
    rewrite Hc. apply IH; auto.
Qed.

Lemma int_of_str_digits (g : string) :
  all_chars Py.isdigit g = true -> g <> "" ->
  exists n, Py.int_of_str g = Some n.
Proof.
  intros Hall Hne. unfold Py.int_of_str.
  destruct g as [|c g]; [congruence|].
  pose proof Hall as Hall'. simpl in Hall'.
  apply andb_true_iff in Hall' as [Hc _].
  cbn [Py.int_lstrip]. rewrite (isdigit_not_int_space c Hc).
  rewrite (int_rstrip_digits _ Hall).
  destruct (isdigit_not_sign c Hc) as [-> ->].
  apply digits_all; auto.
Qed.

Lemma spans_plus_digits (greedy : bool) (g : string) :
  spans (Re.Plus Py.isdigit greedy) g ->
  all_chars Py.isdigit g = true /\ g <> "".
Proof.
  simpl. intros [m1 [m2 [-> [[Hlen Hall1] Hall2]]]].
  destruct m1 as [|c m1]; [discriminate|].
  split; [|discriminate].
  simpl in *. apply andb_true_iff in Hall1 as [Hc Hall1].
  rewrite Hc. simpl.
  clear Hlen. induction m1 as [|d m1 IH]; simpl in *; [assumption|].
  apply andb_true_iff in Hall1 as [-> Hall1]. auto.
Qed.

Lemma spans_four_digits (g : string) :
  spans (Re.Times 4 Py.isdigit) g ->
  all_chars Py.isdigit g = true /\ g <> "".
Proof.
  simpl. intros [Hlen Hall]. split; [assumption|].
  intros ->. discriminate.
Qed.

Lemma search_round_int (text g : string) :
  Re.search Re.round_re text = Some g -> exists n, Py.int_of_str g = Some n.
Proof.
  intros H. apply search_sound in H. apply spans_plus_digits in H as [H1 H2].
  now apply int_of_str_digits.
Qed.

Lemma search_pick_int (text g : string) :
  Re.search Re.pick_re text = Some g -> exists n, Py.int_of_str g = Some n.
Proof.
  intros H. apply search_sound in H. apply spans_plus_digits in H as [H1 H2].
  now apply int_of_str_digits.
Qed.

Lemma search_year_int (text g : string) :
  Re.search Re.year_re text = Some g -> exists n, Py.int_of_str g = Some n.
Proof.
  intros H. apply search_sound in H. apply spans_four_digits in H as [H1 H2].
  now apply int_of_str_digits.
Qed.

(* ================================================================== *)
(** ** The extractor *)

Lemma scan_shoots_returns (text : string) (i : Scrape.info) :
  exists out i',
    scan_shoots text i = (out, Py.Ret i')
    /\ Scrape.name i' = Scrape.name i
    /\ Scrape.draft_year i' = Scrape.draft_year i
    /\ Scrape.draft_round i' = Scrape.draft_round i
    /\ Scrape.draft_pick i' = Scrape.draft_pick i
    /\ Scrape.draft_team i' = Scrape.draft_team i.
Proof.
  unfold scan_shoots.
  destruct (Py.contains "Shoots:" text); [|now exists [], i].
  destruct (Re.search Re.shoots_re text) as [g|]; [|now exists [], i].
  eexists; eexists. split; [reflexivity|]. now simpl.
Qed.

Lemma scan_team_spec (text : string) (i : Scrape.info) :
  scan_team text i =
  ([], Py.Ret match Re.search Re.draft_team_re text with
              | Some g => Scrape.set_draft_team (Some (Py.strip g)) i
              | None => i
              end).
Proof.
  unfold scan_team. now destruct (Re.search Re.draft_team_re text).
Qed.

Lemma scan_round_spec (text : string) (i : Scrape.info) :
  exists out,
    scan_round text i =
    (out, Py.Ret match Re.search Re.round_re text with
                 | Some g =>
                     Scrape.set_draft_round
                       (option_map (fun n => Z.min n 2) (Py.int_of_str g)) i
                 | None => i
                 end).
Proof.
  unfold scan_round.
  destruct (Re.search Re.round_re text) as [g|] eqn:E; [|now exists []].
  destruct (search_round_int text g E) as [n Hn].
  unfold Scrape.lift, Scrape.bind. simpl. rewrite Hn. simpl.
  destruct (negb (n =? Z.min n 2)%Z); eexists; reflexivity.
Qed.

Lemma scan_pick_spec (text : string) (i : Scrape.info) :
  exists out,
    scan_pick text i =
    (out, Py.Ret match Re.search Re.pick_re text with
                 | Some g => Scrape.set_draft_pick (Py.int_of_str g) i
                 | None => i
                 end).
Proof.
  unfold scan_pick.
  destruct (Re.search Re.pick_re text) as [g|] eqn:E; [|now exists []].
  destruct (search_pick_int text g E) as [n Hn].
  unfold Scrape.lift, Scrape.bind. simpl. rewrite Hn.
  eexists; reflexivity.
Qed.

Lemma scan_year_spec (text : string) (i : Scrape.info) :
  exists out,
    scan_year text i =
    (out, Py.Ret match Re.search Re.year_re text with
                 | Some g => Scrape.set_draft_year (Py.int_of_str g) i
                 | None => i
                 end).
Proof.
  unfold scan_year.
  destruct (Re.search Re.year_re text) as [g|] eqn:E; [|now exists []].
  destruct (search_year_int text g E) as [n Hn].
  unfold Scrape.lift, Scrape.bind. simpl. rewrite Hn.
  eexists; reflexivity.
Qed.

Lemma report_team_returns (i : Scrape.info) :
  exists out, report_team i = (out, Py.Ret tt).
Proof.
  unfold report_team. destruct (Scrape.draft_team i) as [t|];
    [destruct (Py.truthy t)|]; eexists; reflexivity.
Qed.

(** The [Draft:] branch for a drafted player: it returns, and each field
    is set from the match of its own pattern alone. *)
Lemma scan_draft_drafted (text : string) (i : Scrape.info) :
  Py.contains "Draft:" text = true ->
  Py.contains "Undrafted" text || Py.contains "undrafted" text = false ->
  exists out i',
    scan_draft text i = (out, Py.Ret i')
    /\ Scrape.draft_team i'
       = match Re.search Re.draft_team_re text with
         | Some g => Some (Py.strip g)
         | None => Scrape.draft_team i
         end
    /\ Scrape.draft_round i'
       = match Re.search Re.round_re text with
         | Some g => option_map (fun n => Z.min n 2) (Py.int_of_str g)
         | None => Scrape.draft_round i
         end
    /\ Scrape.draft_pick i'
       = match Re.search Re.pick_re text with
         | Some g => Py.int_of_str g
         | None => Scrape.draft_pick i
         end
    /\ Scrape.draft_year i'
       = match Re.search Re.year_re text with
         | Some g => Py.int_of_str g
         | None => Scrape.draft_year i
         end
    /\ Scrape.name i' = Scrape.name i
    /\ Scrape.shoots i' = Scrape.shoots i.
Proof.
  intros Hd Hu. unfold scan_draft. rewrite Hd, Hu.
  rewrite scan_team_spec. cbn [Scrape.bind].
  match goal with
  | |- context [scan_round text ?a] =>
      destruct (scan_round_spec text a) as [o2 H2]
  end.
  rewrite H2. cbn [Scrape.bind].
  match goal with
  | |- context [scan_pick text ?a] =>
      destruct (scan_pick_spec text a) as [o3 H3]
  end.
  rewrite H3. cbn [Scrape.bind].
  match goal with
  | |- context [scan_year text ?a] =>
      destruct (scan_year_spec text a) as [o4 H4]
  end.
  rewrite H4. cbn [Scrape.bind].
  match goal with
  | |- context [report_team ?a] =>
      destruct (report_team_returns a) as [o5 H5]
  end.
  rewrite H5. cbn [Scrape.bind Scrape.ret].
  eexists; eexists. split; [reflexivity|].
  destruct (Re.search Re.draft_team_re text),
           (Re.search Re.round_re text),
           (Re.search Re.pick_re text),
           (Re.search Re.year_re text); repeat split; reflexivity.
Qed.

Lemma scan_draft_returns (text : string) (i : Scrape.info) :
  exists out i',
    scan_draft text i = (out, Py.Ret i')
    /\ Scrape.name i' = Scrape.name i
    /\ Scrape.shoots i' = Scrape.shoots i
    /\ (Py.contains "Draft:" text = false -> i' = i).
Proof.
  destruct (Py.contains "Draft:" text) eqn:Hd.
  - destruct (Py.contains "Undrafted" text || Py.contains "undrafted" text)
      eqn:Hu.
    + unfold scan_draft. rewrite Hd, Hu.
      eexists; eexists. split; [reflexivity|]. repeat split. discriminate.
    + destruct (scan_draft_drafted text i Hd Hu)
        as [out [i' [H [_ [_ [_ [_ [Hn Hs]]]]]]]].
      exists out, i'. repeat split; trivial. discriminate.
  - unfold scan_draft. rewrite Hd. exists [], i. auto.
Qed.

(** One turn of the loop always returns. *)
Lemma scan_paragraph_returns (text : string) (i : Scrape.info) :
  exists out i',
    scan_paragraph text i = (out, Py.Ret i')
    /\ Scrape.name i' = Scrape.name i
    /\ (Py.contains "Draft:" text = false ->
        Scrape.draft_year i' = Scrape.draft_year i
        /\ Scrape.draft_round i' = Scrape.draft_round i
        /\ Scrape.draft_pick i' = Scrape.draft_pick i
        /\ Scrape.draft_team i' = Scrape.draft_team i).
Proof.
  unfold scan_paragraph.
  destruct (scan_shoots_returns text i)
    as [o1 [i1 [-> [Hn [Hy [Hr [Hp Ht]]]]]]].
  destruct (scan_draft_returns text i1) as [o2 [i2 [H2 [Hn2 [_ Hsame]]]]].
  cbn [Scrape.bind]. rewrite H2.
  eexists; eexists. split; [reflexivity|]. split; [congruence|].
  intros Hd. rewrite (Hsame Hd). auto.
Qed.











(* ================================================================== *)
(** ** Worked examples *)

Example normalize_shoots_ex :
  map normalize_shoots
      [Some "RightLeft"; Some " right "; Some "  Both "; Some ""; None]
  = [Some "Left"; Some "Right"; Some "Both"; None; None].
Proof. vm_compute. reflexivity. Qed.

Example normalize_draft_round_ex :
  map normalize_draft_round
      [Py.VInt 5; Py.VInt 0; Py.VStr " 7 "; Py.VStr "1_0"; Py.VStr "abc";
       Py.VStr "1__0"; Py.VNone; Py.VOther; Py.VBool true;
       Py.VFloat (Py.FFinite (-11) (-2))]
  = [Py.Ret (Some 2); Py.Ret (Some 0); Py.Ret (Some 2); Py.Ret (Some 2);
     Py.Ret None; Py.Ret None; Py.Ret None; Py.Ret None; Py.Ret (Some 1);
     Py.Ret (Some (-2))]%Z.
Proof. vm_compute. reflexivity. Qed.

Example like_ex :
  map (Sqlite.like "%Left%") ["lefty"; "LEFT"; "Left"; "aLeFtb"; "le ft"; ""]
  = [true; true; true; true; false; false].
Proof. vm_compute. reflexivity. Qed.

Example search_ex :
  map (fun pat => Re.search pat lakers_block)
      [Re.draft_team_re; Re.round_re; Re.pick_re; Re.year_re; Re.shoots_re]
  = [Some "Lakers"; Some "1"; Some "13"; Some "1996"; None].
Proof. vm_compute. reflexivity. Qed.

(** The run on [kobe]: the report announces 'RightLeft' -> 'Right' and
    then counts no updated row. *)
Example fix_existing_data_ex :
  fix_existing_data [kobe] =
  ([Players.mkRow "bryanko01" "Kobe Bryant" (Some "Left") (Some 1996%Z)
                  (Some 2%Z) (Some 13%Z) (Some "Lakers")],
   ["=== Fixing Existing Data ===" ++ Py.nl;
    "1. Fixing draft rounds > 2...";
    "   Found 1 players with draft_round > 2:";
    "   - Kobe Bryant: round 5 -> 2";
    "   " ++ check_mark ++ " Updated 1 players to round 2" ++ Py.nl;
    "2. Fixing shoots column...";
    "   Found 1 players with 'LeftRight' or similar:";
    "   - Kobe Bryant: 'RightLeft' -> 'Left'";
    "   " ++ check_mark ++ " Updated 1 players" ++ Py.nl;
    "   Found 1 players with 'RightLeft' or similar:";
    "   - Kobe Bryant: 'RightLeft' -> 'Right'";
    "   " ++ check_mark ++ " Updated 0 players" ++ Py.nl;
    "3. Checking undrafted players...";
    "   " ++ info_mark
    ++ "  0 undrafted players (NULL draft_round is correct)" ++ Py.nl;
    "=== Data Fix Complete ===" ++ Py.nl]).
Proof. vm_compute. reflexivity. Qed.

Example test_scrape_player_ex :
  test_scrape_player "bryanko01"
    (Scrape.Page
       (Scrape.mkSoup (Some (Scrape.mkHeading (Some "Kobe Bryant") "Kobe"))
                      (Some ["Shoots: RightLeft"; lakers_block])))
  = (["Testing scrape for player: bryanko01";
      "URL: https://www.basketball-reference.com/players/b/bryanko01.html";
      "  Shoots: 'RightLeft' -> 'Left'";
      "  Draft Round: 1"; "  Draft Pick: 13"; "  Draft Year: 1996";
      "  Draft Team: Lakers"],
     Py.Ret (Scrape.mkInfo "Kobe Bryant" (Some "Left") (Some 1996%Z)
                           (Some 1%Z) (Some 13%Z) (Some "Lakers"))).
Proof. vm_compute. reflexivity. Qed.

Example test_scrape_player_errors :
  test_scrape_player "" Scrape.BadStatus = ([], Py.Raise Py.IndexError)
  /\ test_scrape_player "x" Scrape.BadStatus
     = (["Testing scrape for player: x";
         "URL: https://www.basketball-reference.com/players/x/x.html"],
        Py.Raise Py.HTTPError).
Proof. split; vm_compute; reflexivity. Qed.

(* ================================================================== *)
(** ** Further properties of the normalizers *)

Lemma rstrip_idem (s : string) : Py.rstrip (Py.rstrip s) = Py.rstrip s.
Proof.
  induction s as [|c s IH]; simpl; [reflexivity|].
  destruct (Py.isspace c && (Py.rstrip s =? "")) eqn:E; [reflexivity|].
  simpl. now rewrite IH, E.
Qed.

Lemma lstrip_rstrip_lstrip (s : string) :
  Py.lstrip (Py.rstrip (Py.lstrip s)) = Py.rstrip (Py.lstrip s).
Proof.
  induction s as [|c s IH]; simpl; [reflexivity|].
  destruct (Py.isspace c) eqn:Hc; [exact IH|].
  simpl. rewrite Hc. simpl. now rewrite Hc.
Qed.

Lemma strip_idem (s : string) : Py.strip (Py.strip s) = Py.strip s.
Proof.
  unfold Py.strip. now rewrite lstrip_rstrip_lstrip, rstrip_idem.
Qed.

Lemma normalize_shoots_stripped (t : string) :
  t <> "" -> Py.strip t = t ->
  Py.contains "Left" t || Py.contains "left" (Py.lower t) = false ->
  Py.contains "Right" t || Py.contains "right" (Py.lower t) = false ->
  normalize_shoots (Some t) = Some t.
Proof.
  intros Hne Hs Hl Hr.
  rewrite normalize_shoots_unfold by assumption.
  now rewrite Hs, Hl, Hr.
Qed.

(** X1. [normalize_shoots] applied to its own result changes nothing,
    unless the text is made of white space only: then the first pass
    gives the empty text and the second gives null. *)
Theorem normalize_shoots_twice (s : string) :
  (Py.strip s <> "" ->
   normalize_shoots (normalize_shoots (Some s)) = normalize_shoots (Some s))
  /\ (s <> "" -> Py.strip s = "" ->
      normalize_shoots (Some s) = Some ""
      /\ normalize_shoots (normalize_shoots (Some s)) = None).
Proof.
  split.
  - intros Ht.
    assert (Hne : s <> "") by (intros ->; now apply Ht).
    rewrite (normalize_shoots_unfold s Hne).
    destruct (Py.contains "Left" (Py.strip s)
              || Py.contains "left" (Py.lower (Py.strip s))) eqn:El;
      [reflexivity|].
    destruct (Py.contains "Right" (Py.strip s)
              || Py.contains "right" (Py.lower (Py.strip s))) eqn:Er;
      [reflexivity|].
    apply normalize_shoots_stripped; auto using strip_idem.
  - intros Hne Ht. rewrite (normalize_shoots_unfold s Hne), Ht.
    split; reflexivity.
Qed.

Lemma normalize_shoots_twice_witness :
  normalize_shoots (normalize_shoots (Some " Both hands "))
  = normalize_shoots (Some " Both hands ")
  /\ normalize_shoots (normalize_shoots (Some "  ")) = None.
Proof.
  split.
  - apply (proj1 (normalize_shoots_twice " Both hands ")).
    vm_compute. discriminate.
  - apply (proj2 (normalize_shoots_twice "  "));
      [discriminate | reflexivity].
Defined.

(** X2. [normalize_shoots] gives null for the absent value and the empty
    text only; any text it returns carries no white space at either end
    and is "Left", "Right" or a text holding neither word in any letter
    case. *)
Theorem normalize_shoots_result (x : option string) :
  (normalize_shoots x = None <-> x = None \/ x = Some "")
  /\ (forall r, normalize_shoots x = Some r ->
        Py.strip r = r
        /\ (r = "Left" \/ r = "Right"
            \/ (~ occurs_nocase "left" r /\ ~ occurs_nocase "right" r))).
Proof.
  destruct x as [s|]; [|split; [tauto | discriminate]].
  destruct (string_dec s "") as [-> | Hne].
  { split; [tauto | discriminate]. }
  rewrite (normalize_shoots_unfold s Hne).
  destruct (Py.contains "Left" (Py.strip s)
            || Py.contains "left" (Py.lower (Py.strip s))) eqn:El.
  { split.
    - split; [discriminate | intros [H | H]; congruence].
    - intros r H. injection H as <-. auto. }
  destruct (Py.contains "Right" (Py.strip s)
            || Py.contains "right" (Py.lower (Py.strip s))) eqn:Er.
  { split.
    - split; [discriminate | intros [H | H]; congruence].
    - intros r H. injection H as <-. auto. }
  split.
  - split; [discriminate | intros [H | H]; congruence].
  - intros r H. injection H as <-. split; [apply strip_idem|].
    right. right. split; intros Hocc.
    + apply left_test in Hocc. rewrite strip_idem in Hocc. congruence.
    + apply right_test in Hocc. rewrite strip_idem in Hocc. congruence.
Qed.

Lemma normalize_shoots_result_witness :
  Py.strip "Both" = "Both"
  /\ ("Both" = "Left" \/ "Both" = "Right"
      \/ (~ occurs_nocase "left" "Both" /\ ~ occurs_nocase "right" "Both")).
Proof.
  apply (proj2 (normalize_shoots_result (Some "  Both "))).
  reflexivity.
Defined.

Lemma normalize_draft_round_some (v : Py.value) (n : Z) :
  normalize_draft_round v = Py.Ret (Some n) -> (n <= 2)%Z.
Proof.
  unfold normalize_draft_round. intros H.
  destruct v; try discriminate.
  all: destruct (Py.int _) as [k|e]; [|destruct e; discriminate].
  all: injection H as <-; lia.
Qed.

(** X3. [normalize_draft_round] applied to its own result returns that
    result again, without raising. *)
Theorem normalize_draft_round_twice (v : Py.value) (r : option Z) :
  normalize_draft_round v = Py.Ret r ->
  normalize_draft_round (as_value r) = Py.Ret r.
Proof.
  intros H. destruct r as [n|]; [|reflexivity].
  apply normalize_draft_round_some in H.
  cbn [as_value]. rewrite normalize_draft_round_int. f_equal. f_equal. lia.
Qed.

Lemma normalize_draft_round_twice_witness :
  normalize_draft_round (as_value (Some 2%Z)) = Py.Ret (Some 2%Z).
Proof.
  apply (normalize_draft_round_twice (Py.VStr " 14 ") (Some 2%Z)).
  reflexivity.
Defined.

(* ================================================================== *)
(** ** Further properties of the bulk repair *)

Lemma untouched_repaired (r : Players.row) : untouched (repaired r) = untouched r.
Proof.
  unfold untouched, repaired, to_right, to_left, cap_round.
  repeat match goal with
         | |- context [if ?c then _ else _] => destruct c
         end; reflexivity.
Qed.

(** X4. [fix_existing_data] neither adds, drops nor reorders rows, and it
    leaves the identifier, the name, the draft year, the draft pick and
    the draft team of every row as they were. *)
Theorem fix_existing_data_untouched (db : Players.table) :
  List.length (fst (fix_existing_data db)) = List.length db
  /\ map untouched (fst (fix_existing_data db)) = map untouched db.
Proof.
  rewrite fix_existing_data_table. split.
  - apply length_map.
  - rewrite map_map. apply map_ext. apply untouched_repaired.
Qed.

Lemma draft_round_repaired_min (r : Players.row) :
  Players.draft_round (repaired r)
  = option_map (fun n => Z.min n 2) (Players.draft_round r).
Proof.
  rewrite draft_round_repaired. unfold Players.round_gt_2.
  destruct (Players.draft_round r) as [n|]; [|reflexivity].
  simpl. destruct (Z.ltb_spec 2 n); f_equal; lia.
Qed.

Lemma length_filter_map {A B} (f : B -> bool) (g : A -> B) (l : list A) :
  List.length (filter f (map g l))
  = List.length (filter (fun x => f (g x)) l).
Proof.
  induction l as [|a l IH]; simpl; [reflexivity|].
  destruct (f (g a)); simpl; now rewrite IH.
Qed.

Lemma count_null_repaired (db : Players.table) :
  Players.count Players.round_is_null (map repaired db)
  = Players.count Players.round_is_null db.
Proof.
  unfold Players.count. rewrite length_filter_map.
  f_equal. apply filter_ext. intros r.
  unfold Players.round_is_null. rewrite draft_round_repaired_min.
  now destruct (Players.draft_round r).
Qed.

Lemma fix_existing_data_tail (db : Players.table) :
  exists pre,
    snd (fix_existing_data db) =
    app pre (app (check_undrafted (fst (fix_existing_data db)))
                 ["=== Data Fix Complete ===" ++ Py.nl]).
Proof.
  unfold fix_existing_data.
  destruct (fix_draft_rounds db) as [db1 out1].
  destruct (fix_shoots db1) as [db2 out2]. cbn [fst snd List.concat].
  exists (app ["=== Fixing Existing Data ===" ++ Py.nl;
               "1. Fixing draft rounds > 2..."]
              (app out1 (app ["2. Fixing shoots column..."]
                             (app out2
                                  ["3. Checking undrafted players..."])))).
  rewrite app_nil_r. repeat rewrite <- app_assoc. reflexivity.
Qed.

(** X5. After [fix_existing_data] every draft round is the smaller of the
    stored one and 2 and NULL stays NULL: no round above 2 is left, and
    rounds at most 2, zero and negative ones included, are kept.  The
    count of undrafted players printed in step 3 is the count of NULL
    draft rounds of the table as it was before the run. *)
Theorem fix_existing_data_draft_rounds (db : Players.table) :
  map Players.draft_round (fst (fix_existing_data db))
  = map (fun r => option_map (fun n => Z.min n 2) (Players.draft_round r)) db
  /\ (exists pre,
        snd (fix_existing_data db) =
        app pre (app (check_undrafted db)
                     ["=== Data Fix Complete ===" ++ Py.nl])).
Proof.
  split.
  - rewrite fix_existing_data_table, map_map. apply map_ext.
    apply draft_round_repaired_min.
  - destruct (fix_existing_data_tail db) as [pre H]. exists pre.
    rewrite H. rewrite fix_existing_data_table.
    unfold check_undrafted. now rewrite count_null_repaired.
Qed.








(** X7. The repair works row by row: although every update is guarded by
    a select over the whole table, repairing two tables laid end to end
    gives the two repaired tables laid end to end. *)
Theorem fix_existing_data_app (db1 db2 : Players.table) :
  fst (fix_existing_data (db1 ++ db2)%list)
  = (fst (fix_existing_data db1) ++ fst (fix_existing_data db2))%list.
Proof. rewrite !fix_existing_data_table. apply map_app. Qed.

Lemma map_filter_map {A B C} (g : B -> C) (f : B -> bool) (h : A -> B)
      (l : list A) :
  map g (filter f (map h l)) = map (fun x => g (h x)) (filter (fun x => f (h x)) l).
Proof.
  induction l as [|a l IH]; simpl; [reflexivity|].
  destruct (f (h a)); simpl; now rewrite IH.
Qed.

Lemma right_cond_after_left (r : Players.row) :
  right_cond (to_left r) = right_cond r && negb (left_cond r).
Proof.
  unfold to_left. destruct (left_cond r) eqn:El.
  - rewrite andb_false_r. now apply shoots_Left.
  - now rewrite andb_true_r.
Qed.

Lemma right_line_cap_round (r : Players.row) :
  right_line (cap_round r) = right_line r.
Proof. unfold cap_round. now destruct (Players.round_gt_2 r). Qed.

Lemma fix_shoots_right_pass (db : Players.table) :
  filter right_cond db <> [] ->
  exists pre post,
    snd (fix_shoots db) =
    app pre
        (right_found_line (List.length (filter right_cond db))
         :: app (map right_line (filter right_cond db))
                (updated_line
                   (List.length
                      (filter (fun r => right_cond r && negb (left_cond r))
                              db))
                 :: post)).
Proof.
  intros Hne.
  assert (Hcount : forall db1, db1 = map to_left db ->
            List.length (filter right_cond db1)
            = List.length
                (filter (fun r => right_cond r && negb (left_cond r)) db)).
  { intros db1 ->. rewrite length_filter_map. f_equal.
    apply filter_ext. apply right_cond_after_left. }
  assert (Hl : nonempty (filter left_cond db) = false ->
               db = map to_left db).
  { intros E. symmetry. apply map_unless, filter_nil_false.
    now apply nonempty_false. }
  unfold fix_shoots. rewrite !nonempty_select.
  assert (Er : nonempty (filter right_cond db) = true)
    by (destruct (filter right_cond db); [congruence | reflexivity]).
  rewrite Er. unfold Players.select. rewrite !length_map, !map_map.
  assert (Hshape : forall (o1 o3 ls : list string) (f u : string),
            app o1 (app (f :: app ls [u]) o3)
            = app o1 (f :: app ls (u :: o3))).
  { intros. cbn [app]. now rewrite <- app_assoc. }
  destruct (nonempty (filter left_cond db)) eqn:El;
    cbn [Players.update snd negb andb].
  - change (map (fun r => if left_cond r
                          then Players.set_shoots (Some "Left") r else r) db)
      with (map to_left db).
    rewrite (Hcount _ eq_refl), Hshape. eexists; eexists. reflexivity.
  - rewrite (Hcount db (Hl eq_refl)), Hshape. eexists; eexists. reflexivity.
Qed.

(** X8. In the second shoots pass the rows listed under "Found" are those
    selected before the first update, while the count printed after
    "Updated" is that of the rows the second update still matches: the
    rows holding "right" but not "left".  The two numbers differ by the
    number of rows that matched both conditions. *)
Theorem shoots_right_pass_counts (db : Players.table) :
  let found := filter right_cond db in
  let fresh := filter (fun r => right_cond r && negb (left_cond r)) db in
  let both := filter (fun r => right_cond r && left_cond r) db in
  found <> [] ->
  (exists pre post,
     snd (fix_existing_data db) =
     app pre
         (right_found_line (List.length found)
          :: app (map right_line found)
                 (updated_line (List.length fresh) :: post)))
  /\ List.length found = List.length fresh + List.length both.
Proof.
  intros found fresh both Hne. split.
  - assert (Hne1 : filter right_cond (map cap_round db) <> []).
    { intros E. apply Hne. apply (f_equal (@List.length _)) in E.
      rewrite length_filter_map in E.
      rewrite (filter_ext _ right_cond right_cond_cap_round) in E.
      subst found. now destruct (filter right_cond db). }
    destruct (fix_shoots_right_pass (map cap_round db) Hne1)
      as [pre [post H]].
    rewrite !length_filter_map, map_filter_map in H.
    rewrite (filter_ext _ right_cond right_cond_cap_round) in H.
    rewrite (map_ext _ right_line right_line_cap_round) in H.
    rewrite (filter_ext (fun x => right_cond (cap_round x)
                                  && negb (left_cond (cap_round x)))
                        (fun r => right_cond r && negb (left_cond r))) in H
      by (intros r; now rewrite right_cond_cap_round, left_cond_cap_round).
    unfold fix_existing_data.
    pose proof (fix_draft_rounds_table db) as H1.
    destruct (fix_draft_rounds db) as [db1 out1]. simpl in H1. subst db1.
    destruct (fix_shoots (map cap_round db)) as [db2 out2].
    cbn [snd] in H. subst out2. cbn [snd List.concat].
    exists (app ["=== Fixing Existing Data ===" ++ Py.nl;
                 "1. Fixing draft rounds > 2..."]
                (app out1 (app ["2. Fixing shoots column..."] pre))).
    eexists. repeat rewrite <- app_assoc. cbn [app].
    repeat rewrite <- app_assoc. reflexivity.
  - subst found fresh both. clear Hne.
    induction db as [|r db IH]; [reflexivity|]. simpl.
    destruct (right_cond r), (left_cond r); simpl; lia.
Qed.

Lemma shoots_right_pass_counts_witness :
  List.length (filter right_cond sample_table)
  = List.length (filter (fun r => right_cond r && negb (left_cond r))
                        sample_table)
    + List.length (filter (fun r => right_cond r && left_cond r)
                          sample_table).
Proof.
  apply (shoots_right_pass_counts sample_table).
  vm_compute. discriminate.
Defined.

(* ================================================================== *)
(** ** Further properties of the extractor *)

Lemma test_scrape_player_page (c : ascii) (p : string) (doc : Scrape.soup) :
  test_scrape_player (String c p) (Scrape.Page doc)
  = (app (scrape_banner (String c p)) (fst (extract doc)), snd (extract doc)).
Proof.
  unfold test_scrape_player, Scrape.lift, Scrape.print.
  cbn [Scrape.bind app scrape_banner].
  now destruct (extract doc) as [out r].
Qed.

(** An invariant of the loop body holds of the returned record. *)
Lemma scan_paragraphs_invariant (P : Scrape.info -> Prop) :
  (forall text i out i',
     P i -> scan_paragraph text i = (out, Py.Ret i') -> P i') ->
  forall ps i, P i ->
    exists out i', scan_paragraphs ps i = (out, Py.Ret i') /\ P i'.
Proof.
  intros Hstep ps. induction ps as [|text ps IH]; intros i Hi.
  - exists [], i. auto.
  - destruct (scan_paragraph_returns text i) as [o [i1 [H1 _]]].
    destruct (IH i1 (Hstep _ _ _ _ Hi H1)) as [o2 [i2 [H2 Hi2]]].
    cbn [scan_paragraphs]. rewrite H1. cbn [Scrape.bind]. rewrite H2.
    eexists; eexists. split; [reflexivity | exact Hi2].
Qed.

Lemma extract_invariant (P : Scrape.info -> Prop) (doc : Scrape.soup) :
  (forall text i out i',
     P i -> scan_paragraph text i = (out, Py.Ret i') -> P i') ->
  P (blank (get_name doc)) ->
  exists out info, extract doc = (out, Py.Ret info) /\ P info.
Proof.
  intros Hstep H0. unfold extract.
  destruct (Scrape.meta doc) as [ps|].
  - now apply scan_paragraphs_invariant.
  - exists [], (blank (get_name doc)). auto.
Qed.


Lemma digit_value_range (c : ascii) :
  Py.isdigit c = true -> (0 <= Py.digit_value c <= 9)%Z.
Proof.
  unfold Py.isdigit, Py.digit_value. intros H. apply between_iff in H. lia.
Qed.

Lemma digits_bounds (s : string) : forall acc prev n,
  all_chars Py.isdigit s = true ->
  Py.digits s acc prev = Some n ->
  (acc * 10 ^ Z.of_nat (String.length s) <= n
   < (acc + 1) * 10 ^ Z.of_nat (String.length s))%Z.
Proof.
  induction s as [|c s IH]; intros acc prev n Hall H; cbn [Py.digits] in H.
  - destruct prev; [|discriminate]. injection H as <-. simpl. lia.
  - simpl in Hall. apply andb_true_iff in Hall as [Hc Hs].
    rewrite Hc in H. specialize (IH _ _ _ Hs H).
    pose proof (digit_value_range c Hc) as Hd.
    cbn [String.length]. rewrite Nat2Z.inj_succ, Z.pow_succ_r by lia.
    set (P := (10 ^ Z.of_nat (String.length s))%Z) in *.
    assert (HP : (0 < P)%Z) by (apply Z.pow_pos_nonneg; lia).
    assert (0 <= Py.digit_value c * P)%Z by (apply Z.mul_nonneg_nonneg; lia).
    assert (0 <= (9 - Py.digit_value c) * P)%Z
      by (apply Z.mul_nonneg_nonneg; lia).
    lia.
Qed.

Lemma int_of_str_digits_bounds (g : string) :
  all_chars Py.isdigit g = true -> g <> "" ->
  exists n, Py.int_of_str g = Some n
            /\ (0 <= n < 10 ^ Z.of_nat (String.length g))%Z.
Proof.
  intros Hall Hne.
  destruct (int_of_str_digits g Hall Hne) as [n Hn]. exists n.
  split; [exact Hn|].
  unfold Py.int_of_str in Hn.
  destruct g as [|c g]; [congruence|].
  pose proof Hall as Hall'. simpl in Hall'.
  apply andb_true_iff in Hall' as [Hc _].
  cbn [Py.int_lstrip] in Hn. rewrite (isdigit_not_int_space c Hc) in Hn.
  rewrite (int_rstrip_digits _ Hall) in Hn.
  destruct (isdigit_not_sign c Hc) as [E1 E2]. rewrite E1, E2 in Hn.
  pose proof (digits_bounds _ _ _ _ Hall Hn). lia.
Qed.

Lemma search_round_nat (text g : string) :
  Re.search Re.round_re text = Some g ->
  exists n, Py.int_of_str g = Some n /\ (0 <= n)%Z.
Proof.
  intros H. apply search_sound in H. apply spans_plus_digits in H as [H1 H2].
  destruct (int_of_str_digits_bounds g H1 H2) as [n [Hn Hb]].
  exists n. split; [exact Hn | lia].
Qed.

Lemma search_pick_nat (text g : string) :
  Re.search Re.pick_re text = Some g ->
  exists n, Py.int_of_str g = Some n /\ (0 <= n)%Z.
Proof.
  intros H. apply search_sound in H. apply spans_plus_digits in H as [H1 H2].
  destruct (int_of_str_digits_bounds g H1 H2) as [n [Hn Hb]].
  exists n. split; [exact Hn | lia].
Qed.

Lemma search_year_nat (text g : string) :
  Re.search Re.year_re text = Some g ->
  exists n, Py.int_of_str g = Some n /\ (0 <= n <= 9999)%Z.
Proof.
  intros H. apply search_sound in H. pose proof H as [Hlen _].
  apply spans_four_digits in H as [H1 H2].
  destruct (int_of_str_digits_bounds g H1 H2) as [n [Hn Hb]].
  exists n. split; [exact Hn|]. rewrite Hlen in Hb.
  change (10 ^ Z.of_nat 4)%Z with 10000%Z in Hb. lia.
Qed.

(** What the [Draft:] part does, case by case. *)
Lemma scan_draft_cases (text : string) (i : Scrape.info)
      (out : list string) (i' : Scrape.info) :
  scan_draft text i = (out, Py.Ret i') ->
  (Py.contains "Draft:" text = false /\ i' = i)
  \/ (Py.contains "Draft:" text = true /\ undrafted i')
  \/ (Scrape.draft_round i'
      = match Re.search Re.round_re text with
        | Some g => option_map (fun n => Z.min n 2) (Py.int_of_str g)
        | None => Scrape.draft_round i
        end
      /\ Scrape.draft_pick i'
         = match Re.search Re.pick_re text with
           | Some g => Py.int_of_str g
           | None => Scrape.draft_pick i
           end
      /\ Scrape.draft_year i'
         = match Re.search Re.year_re text with
           | Some g => Py.int_of_str g
           | None => Scrape.draft_year i
           end).
Proof.
  intros H. destruct (Py.contains "Draft:" text) eqn:Hd.
  - destruct (Py.contains "Undrafted" text || Py.contains "undrafted" text)
      eqn:Hu.
    + right. left. split; [reflexivity|].
      unfold scan_draft in H. rewrite Hd, Hu in H.
      injection H as _ <-. repeat split.
    + right. right.
      destruct (scan_draft_drafted text i Hd Hu)
        as [o [j [Hj [_ [Hr [Hp [Hy _]]]]]]].
      rewrite H in Hj. injection Hj as _ <-. auto.
  - left. unfold scan_draft in H. rewrite Hd in H.
    injection H as _ <-. auto.
Qed.

(** X10. Whatever the page holds, the numbers [test_scrape_player]
    returns are in range: a draft round is 0, 1 or 2, a draft pick is not
    negative and a draft year lies between 0 and 9999. *)
Theorem test_scrape_player_numbers (player_id : string)
        (doc : Scrape.soup) (out : list string) (info : Scrape.info) :
  test_scrape_player player_id (Scrape.Page doc) = (out, Py.Ret info) ->
  draft_numbers_in_range info.
Proof.
  intros H. destruct player_id as [|c p]; [discriminate|].
  rewrite test_scrape_player_page in H.
  destruct (extract_invariant draft_numbers_in_range doc)
    as [o [j [Hj Hrange]]].
  - intros text i o i' [Hr [Hp Hy]] Hs. unfold scan_paragraph in Hs.
    destruct (scan_shoots_returns text i)
      as [o1 [i1 [H1 [_ [Ey [Er [Ep _]]]]]]].
    rewrite H1 in Hs. cbn [Scrape.bind] in Hs.
    destruct (scan_draft text i1) as [o2 [i2|e]] eqn:H2; [|discriminate].
    injection Hs as _ <-.
    destruct (scan_draft_cases _ _ _ _ H2)
      as [[_ ->] | [[_ [Ur [Up [_ Uy]]]] | [Fr [Fp Fy]]]].
    + unfold draft_numbers_in_range. rewrite Ey, Er, Ep. auto.
    + unfold draft_numbers_in_range. rewrite Ur, Up, Uy.
      repeat split; discriminate.
    + rewrite Er in Fr. rewrite Ep in Fp. rewrite Ey in Fy.
      unfold draft_numbers_in_range. rewrite Fr, Fp, Fy.
      split; [|split].
      * destruct (Re.search Re.round_re text) as [g|] eqn:E; [|exact Hr].
        destruct (search_round_nat text g E) as [n [-> Hn]].
        intros d Hd. injection Hd as <-. lia.
      * destruct (Re.search Re.pick_re text) as [g|] eqn:E; [|exact Hp].
        destruct (search_pick_nat text g E) as [n [-> Hn]].
        intros d Hd. injection Hd as <-. lia.
      * destruct (Re.search Re.year_re text) as [g|] eqn:E; [|exact Hy].
        destruct (search_year_nat text g E) as [n [-> Hn]].
        intros d Hd. injection Hd as <-. lia.
  - repeat split; discriminate.
  - rewrite Hj in H. cbn [fst snd] in H. injection H as _ <-. exact Hrange.
Qed.

Lemma test_scrape_player_numbers_witness :
  draft_numbers_in_range
    (Scrape.mkInfo "" None (Some 1996%Z) (Some 2%Z) (Some 13%Z)
                   (Some "Lakers")).
Proof.
  apply (test_scrape_player_numbers
           "bryanko01"
           (Scrape.mkSoup None
              (Some ["Draft: Lakers, 14th round, 13th pick, 1996 NBA Draft"]))
           (app (scrape_banner "bryanko01")
                ["  Draft Round: 14 -> 2 (capped)"; "  Draft Pick: 13";
                 "  Draft Year: 1996"; "  Draft Team: Lakers"])).
  vm_compute. reflexivity.
Defined.

Lemma rstrip_spaceless (g : string) : spaceless g = true -> Py.rstrip g = g.
Proof.
  induction g as [|c g IH]; simpl; [reflexivity|].
  intros H. apply andb_true_iff in H as [Hc Hg].
  apply negb_true_iff in Hc. now rewrite Hc, IH.
Qed.

Lemma strip_spaceless (g : string) : spaceless g = true -> Py.strip g = g.
Proof.
  intros H. unfold Py.strip.
  assert (Hl : Py.lstrip g = g).
  { destruct g as [|c g]; [reflexivity|]. simpl in *.
    apply andb_true_iff in H as [Hc _]. apply negb_true_iff in Hc.
    now rewrite Hc. }
  rewrite Hl. now apply rstrip_spaceless.
Qed.

Lemma all_chars_nonspace (g : string) :
  all_chars Re.nonspace g = spaceless g.
Proof. induction g as [|c g IH]; simpl; [reflexivity|]. now rewrite IH. Qed.

Lemma spans_token (g : string) :
  spans (Re.Plus Re.nonspace true) g -> spaceless g = true /\ g <> "".
Proof.
  simpl. intros [m1 [m2 [-> [[Hlen Hall1] Hall2]]]].
  destruct m1 as [|c m1]; [discriminate|].
  split; [|discriminate].
  rewrite <- all_chars_nonspace. simpl in *.
  apply andb_true_iff in Hall1 as [Hc Hall1]. rewrite Hc. simpl.
  clear Hlen. induction m1 as [|d m1 IH]; simpl in *; [assumption|].
  apply andb_true_iff in Hall1 as [-> Hall1]. auto.
Qed.

Lemma normalize_token (g : string) :
  spaceless g = true -> g <> "" ->
  hand_token (normalize_shoots (Some g)).
Proof.
  intros Hs Hne. rewrite normalize_shoots_unfold by assumption.
  pose proof (left_test g) as Hl. pose proof (right_test g) as Hr.
  rewrite (strip_spaceless g Hs) in *.
  destruct (Py.contains "Left" g || Py.contains "left" (Py.lower g)).
  { simpl. split; [discriminate|]. split; [reflexivity | auto]. }
  destruct (Py.contains "Right" g || Py.contains "right" (Py.lower g)).
  { simpl. split; [discriminate|]. split; [reflexivity | auto]. }
  simpl. split; [assumption|]. split; [assumption|].
  right. right. split; intros H; [apply Hl in H | apply Hr in H];
    discriminate.
Qed.

Lemma scan_shoots_cases (text : string) (i : Scrape.info)
      (out : list string) (i' : Scrape.info) :
  scan_shoots text i = (out, Py.Ret i') ->
  Scrape.shoots i' = Scrape.shoots i
  \/ exists g, Re.search Re.shoots_re text = Some g
               /\ Scrape.shoots i' = normalize_shoots (Some (Py.strip g)).
Proof.
  unfold scan_shoots.
  destruct (Py.contains "Shoots:" text);
    [|intros H; injection H as _ <-; now left].
  destruct (Re.search Re.shoots_re text) as [g|];
    [|intros H; injection H as _ <-; now left].
  intros H. cbn in H. injection H as _ <-. right. now exists g.
Qed.

(** X11. Whatever the page holds, the shooting hand [test_scrape_player]
    returns is null, "Left", "Right", or a non-empty token without white
    space that holds neither word in any letter case. *)
Theorem test_scrape_player_hand (player_id : string) (doc : Scrape.soup)
        (out : list string) (info : Scrape.info) :
  test_scrape_player player_id (Scrape.Page doc) = (out, Py.Ret info) ->
  hand_token (Scrape.shoots info).
Proof.
  intros H. destruct player_id as [|c p]; [discriminate|].
  rewrite test_scrape_player_page in H.
  destruct (extract_invariant (fun i => hand_token (Scrape.shoots i)) doc)
    as [o [j [Hj Hhand]]].
  - intros text i o i' Hi Hs. unfold scan_paragraph in Hs.
    destruct (scan_shoots text i) as [o1 [i1|e]] eqn:H1; [|discriminate].
    cbn [Scrape.bind] in Hs.
    destruct (scan_draft_returns text i1) as [o2 [i2 [H2 [_ [Hsame _]]]]].
    rewrite H2 in Hs. injection Hs as _ <-. rewrite Hsame.
    destruct (scan_shoots_cases _ _ _ _ H1) as [-> | [g [Hg ->]]];
      [exact Hi|].
    apply search_sound, spans_token in Hg as [Hsp Hne].
    rewrite (strip_spaceless g Hsp). now apply normalize_token.
  - exact I.
  - rewrite Hj in H. cbn [fst snd] in H. injection H as _ <-. exact Hhand.
Qed.

Lemma test_scrape_player_hand_witness :
  hand_token (Some "Both").
Proof.
  apply (test_scrape_player_hand
           "x" (Scrape.mkSoup None (Some ["Shoots:  Both hands"]))
           (app (scrape_banner "x") ["  Shoots: 'Both' -> 'Both'"])
           (Scrape.mkInfo "" (Some "Both") None None None None)).
  vm_compute. reflexivity.
Defined.

Lemma scan_paragraph_unmarked (text : string) (i : Scrape.info) :
  unmarked text -> scan_paragraph text i = ([], Py.Ret i).
Proof.
  intros [Hs Hd]. unfold scan_paragraph, scan_shoots, scan_draft.
  now rewrite Hs, Hd.
Qed.

Lemma scan_paragraphs_unmarked (ps : list string) (i : Scrape.info) :
  Forall unmarked ps -> scan_paragraphs ps i = ([], Py.Ret i).
Proof.
  induction 1 as [|text ps Ht _ IH]; [reflexivity|].
  cbn [scan_paragraphs]. rewrite (scan_paragraph_unmarked text i Ht).
  cbn [Scrape.bind]. now rewrite IH.
Qed.

(** X12. A page without the meta section, or whose paragraphs hold
    neither "Shoots:" nor "Draft:", makes [test_scrape_player] print its
    two opening lines only and return the name with every other field
    null. *)
Theorem test_scrape_player_unmarked (c : ascii) (p : string)
        (doc : Scrape.soup) :
  match Scrape.meta doc with
  | Some paragraphs => Forall unmarked paragraphs
  | None => True
  end ->
  test_scrape_player (String c p) (Scrape.Page doc)
  = (scrape_banner (String c p),
     Py.Ret (Scrape.mkInfo (get_name doc) None None None None None)).
Proof.
  intros H. rewrite test_scrape_player_page. unfold extract.
  destruct (Scrape.meta doc) as [ps|].
  - rewrite (scan_paragraphs_unmarked ps _ H). cbn [fst snd].
    now rewrite app_nil_r.
  - cbn [fst snd Scrape.ret]. now rewrite app_nil_r.
Qed.

Lemma test_scrape_player_unmarked_witness :
  test_scrape_player
    "jamesle01"
    (Scrape.Page (Scrape.mkSoup (Some (Scrape.mkHeading None "LeBron James"))
                                (Some ["Position: Forward"; "Born: 1984"])))
  = (scrape_banner "jamesle01",
     Py.Ret (Scrape.mkInfo "LeBron James" None None None None None)).
Proof.
  apply (test_scrape_player_unmarked
           "j" "amesle01"
           (Scrape.mkSoup (Some (Scrape.mkHeading None "LeBron James"))
                          (Some ["Position: Forward"; "Born: 1984"]))).
  repeat constructor.
Defined.


(* ================================================================== *)
(** ** Grouping and counting *)

Section GroupCount.
Context {K : Type}.
Variable cmp : K -> K -> comparison.
Variable eq_dec : forall a b : K, {a = b} + {a <> b}.
Hypothesis cmp_eq : forall a b, cmp a b = Eq <-> a = b.
Hypothesis cmp_antisym : forall a b, cmp a b = CompOpp (cmp b a).
Hypothesis cmp_trans :
  forall a b c, cmp a b = Lt -> cmp b c = Lt -> cmp a c = Lt.

Lemma cmp_lt_neq (a b : K) : cmp a b = Lt -> a <> b.
Proof.
  intros H ->. assert (E : cmp b b = Eq) by now apply cmp_eq. congruence.
Qed.

Lemma cmp_gt_lt (a b : K) : cmp a b = Gt -> cmp b a = Lt.
Proof. intros H. rewrite cmp_antisym, H. reflexivity. Qed.

Lemma bump_keys (Q : K -> Prop) (k : K) (groups : list (K * nat)) :
  Q k -> Forall (fun e => Q (fst e)) groups ->
  Forall (fun e => Q (fst e)) (bump cmp k groups).
Proof.
  intros Hk. induction 1 as [|[k' n] rest Hh Ht IH]; simpl.
  - constructor; auto.
  - destruct (cmp k k'); constructor; auto.
Qed.

Lemma bump_ascending (k : K) (groups : list (K * nat)) :
  ascending cmp groups -> ascending cmp (bump cmp k groups).
Proof.
  unfold ascending. induction 1 as [|[k' n] rest Hs IH Hall]; simpl.
  - repeat constructor.
  - destruct (cmp k k') eqn:E.
    + constructor; auto.
    + constructor; [constructor; auto|].
      constructor; [exact E|].
      eapply Forall_impl; [|exact Hall].
      intros e He. simpl in *. eapply cmp_trans; eauto.
    + constructor; [exact IH|].
      apply (bump_keys (fun x => cmp k' x = Lt)); [|exact Hall].
      now apply cmp_gt_lt.
Qed.

Lemma group_count_ascending (keys : list K) :
  ascending cmp (group_count cmp keys).
Proof.
  induction keys as [|k keys IH]; simpl.
  - constructor.
  - now apply bump_ascending.
Qed.

Lemma bump_sum (k : K) (groups : list (K * nat)) :
  list_sum (map snd (bump cmp k groups)) = S (list_sum (map snd groups)).
Proof.
  induction groups as [|[k' n] rest IH]; simpl; [reflexivity|].
  destruct (cmp k k'); simpl; lia.
Qed.

Lemma group_count_sum (keys : list K) :
  list_sum (map snd (group_count cmp keys)) = List.length keys.
Proof.
  induction keys as [|k keys IH]; simpl; [reflexivity|].
  now rewrite bump_sum, IH.
Qed.

Lemma bump_positive (k : K) (groups : list (K * nat)) :
  Forall (fun e => 0 < snd e) groups ->
  Forall (fun e => 0 < snd e) (bump cmp k groups).
Proof.
  induction 1 as [|[k' n] rest Hh Ht IH]; simpl.
  - repeat constructor.
  - simpl in Hh. destruct (cmp k k'); repeat constructor; simpl; auto; lia.
Qed.

Lemma group_count_positive (keys : list K) :
  Forall (fun e => 0 < snd e) (group_count cmp keys).
Proof.
  induction keys as [|k keys IH]; simpl; [constructor|].
  now apply bump_positive.
Qed.

Lemma bump_total (k k0 : K) (groups : list (K * nat)) :
  total_of eq_dec k0 (bump cmp k groups)
  = total_of eq_dec k0 groups + (if eq_dec k0 k then 1 else 0).
Proof.
  unfold total_of.
  induction groups as [|[k' n] rest IH]; simpl.
  - destruct (eq_dec k0 k); reflexivity.
  - destruct (cmp k k') eqn:E; simpl.
    + apply cmp_eq in E. subst k'.
      destruct (eq_dec k0 k); simpl; lia.
    + destruct (eq_dec k0 k), (eq_dec k0 k'); simpl; lia.
    + destruct (eq_dec k0 k'); simpl; rewrite IH; lia.
Qed.

Lemma group_count_total (k0 : K) (keys : list K) :
  total_of eq_dec k0 (group_count cmp keys) = count_occ eq_dec keys k0.
Proof.
  induction keys as [|k keys IH]; simpl; [reflexivity|].
  rewrite bump_total, IH.
  destruct (eq_dec k k0), (eq_dec k0 k); subst; try congruence; lia.
Qed.

Lemma bump_in_keys (k k0 : K) (groups : list (K * nat)) :
  In k0 (map fst (bump cmp k groups)) <-> k0 = k \/ In k0 (map fst groups).
Proof.
  induction groups as [|[k' n] rest IH]; simpl.
  - intuition.
  - destruct (cmp k k') eqn:E; simpl.
    + apply cmp_eq in E. subst k'. intuition.
    + intuition.
    + rewrite IH. intuition.
Qed.

Lemma group_count_in_keys (k0 : K) (keys : list K) :
  In k0 (map fst (group_count cmp keys)) <-> In k0 keys.
Proof.
  induction keys as [|k keys IH]; simpl; [tauto|].
  rewrite bump_in_keys, IH. intuition.
Qed.

(** In ascending groups a key is listed once, with its total. *)
Lemma ascending_total (groups : list (K * nat)) (k : K) (n : nat) :
  ascending cmp groups -> In (k, n) groups -> total_of eq_dec k groups = n.
Proof.
  unfold ascending, total_of.
  induction 1 as [|[k' n'] rest Hs IH Hall]; intros Hin; [easy|].
  simpl in *. destruct Hin as [Heq | Hin].
  - injection Heq as -> ->.
    destruct (eq_dec k k); [|congruence]. simpl.
    replace (filter _ rest) with (@nil (K * nat)); [simpl; lia|].
    symmetry. apply filter_false_nil. intros x Hx.
    rewrite Forall_forall in Hall. specialize (Hall x Hx).
    apply cmp_lt_neq in Hall. now destruct (eq_dec k (fst x)).
  - rewrite Forall_forall in Hall. pose proof (Hall _ Hin) as Hlt.
    apply cmp_lt_neq in Hlt. simpl in Hlt.
    destruct (eq_dec k k'); [congruence|]. auto.
Qed.

(** The groups list every key of the column once, with the number of its
    rows. *)
Lemma group_count_spec (keys : list K) (k : K) (n : nat) :
  In (k, n) (group_count cmp keys)
  <-> 0 < n /\ n = count_occ eq_dec keys k.
Proof.
  split.
  - intros Hin. split.
    + pose proof (group_count_positive keys) as Hp.
      rewrite Forall_forall in Hp. exact (Hp _ Hin).
    + rewrite <- group_count_total. symmetry.
      apply ascending_total; [apply group_count_ascending | exact Hin].
  - intros [Hpos ->].
    assert (Hk : In k (map fst (group_count cmp keys))).
    { apply group_count_in_keys. apply (count_occ_In eq_dec). lia. }
    apply in_map_iff in Hk as [[k' n'] [Hfst Hin]]. simpl in Hfst. subst k'.
    rewrite <- group_count_total.
    now rewrite (ascending_total _ _ _ (group_count_ascending keys) Hin).
Qed.

End GroupCount.

Section NullFirst.
Context {A : Type}.
Variable cmp : A -> A -> comparison.
Hypothesis cmp_eq : forall a b, cmp a b = Eq <-> a = b.
Hypothesis cmp_antisym : forall a b, cmp a b = CompOpp (cmp b a).
Hypothesis cmp_trans :
  forall a b c, cmp a b = Lt -> cmp b c = Lt -> cmp a c = Lt.

Lemma null_first_eq (x y : option A) : null_first cmp x y = Eq <-> x = y.
Proof.
  destruct x as [a|], y as [b|]; simpl; try (split; congruence).
  rewrite cmp_eq. split; congruence.
Qed.

Lemma null_first_antisym (x y : option A) :
  null_first cmp x y = CompOpp (null_first cmp y x).
Proof. destruct x, y; simpl; auto. Qed.

Lemma null_first_trans (x y z : option A) :
  null_first cmp x y = Lt -> null_first cmp y z = Lt ->
  null_first cmp x z = Lt.
Proof.
  destruct x, y, z; simpl; try congruence. apply cmp_trans.
Qed.
End NullFirst.

Lemma string_compare_trans (a b c : string) :
  String.compare a b = Lt -> String.compare b c = Lt ->
  String.compare a c = Lt.
Proof.
  intros H1 H2.
  apply OrderedTypeEx.String_as_OT.cmp_lt.
  apply OrderedTypeEx.String_as_OT.cmp_lt in H1, H2.
  eapply OrderedTypeEx.String_as_OT.lt_trans; eassumption.
Qed.

Lemma Z_compare_trans (a b c : Z) :
  Z.compare a b = Lt -> Z.compare b c = Lt -> Z.compare a c = Lt.
Proof. rewrite !Z.compare_lt_iff. lia. Qed.

Lemma Z_compare_antisym (a b : Z) : Z.compare a b = CompOpp (Z.compare b a).
Proof. apply Z.compare_antisym. Qed.

(** X13. The two distributions of the final validation list every value
    of their column once, NULL first and then in ascending order, each
    with the number of rows that hold it; the counts add up to the number
    of rows. *)
Theorem distributions_count_rows (db : Players.table) :
  (ascending (null_first String.compare) (shoots_distribution db)
   /\ list_sum (map snd (shoots_distribution db)) = List.length db
   /\ forall k n,
        In (k, n) (shoots_distribution db)
        <-> 0 < n /\ n = count_occ hand_eq_dec (map Players.shoots db) k)
  /\ (ascending (null_first Z.compare) (draft_round_distribution db)
      /\ list_sum (map snd (draft_round_distribution db)) = List.length db
      /\ forall k n,
           In (k, n) (draft_round_distribution db)
           <-> 0 < n
               /\ n = count_occ round_eq_dec (map Players.draft_round db) k).
Proof.
  assert (Hs_eq := null_first_eq String.compare
                     OrderedTypeEx.String_as_OT.cmp_eq).
  assert (Hs_anti := null_first_antisym String.compare
                       OrderedTypeEx.String_as_OT.cmp_antisym).
  assert (Hs_trans := null_first_trans String.compare string_compare_trans).
  assert (Hz_eq := null_first_eq Z.compare Z.compare_eq_iff).
  assert (Hz_anti := null_first_antisym Z.compare Z_compare_antisym).
  assert (Hz_trans := null_first_trans Z.compare Z_compare_trans).
  unfold shoots_distribution, draft_round_distribution.
  split; (split; [|split]).
  - now apply group_count_ascending.
  - now rewrite group_count_sum, length_map.
  - intros k n. now apply group_count_spec.
  - now apply group_count_ascending.
  - now rewrite group_count_sum, length_map.
  - intros k n. now apply group_count_spec.
Qed.

(* ================================================================== *)
(** ** The script as a whole *)

Lemma prints_eq (lines : list string) : prints lines = (lines, Py.Ret tt).
Proof.
  induction lines as [|l lines IH]; [reflexivity|].
  cbn [prints]. rewrite IH. reflexivity.
Qed.

Lemma bind_returned {A B} (out : list string) (a : A)
      (f : A -> Scrape.io B) :
  Scrape.bind (out, Py.Ret a) f = (app out (fst (f a)), snd (f a)).
Proof. simpl. now destruct (f a). Qed.







Lemma main_unfold (db : Players.table) (web : string -> Scrape.response) :
  main db web =
  (fst (fix_existing_data db),
   Scrape.print "NBA Player Data Fix Script" ;;;
   Scrape.print (str_mul "=" 50) ;;;
   Scrape.print "" ;;;
   prints (snd (fix_existing_data db)) ;;;
   run_tests (fst (fix_existing_data db)) web ;;;
   final_validation (fst (fix_existing_data db))).
Proof. unfold main. now destruct (fix_existing_data db). Qed.


(** X14. [main] stores the repaired table whatever the fetches do: the
    repair is committed before the first fetch.  When the fetch of
    "bryanko01" fails, [main] raises [HTTPError] right after the opening
    lines of that scrape, so neither the other tests nor the final
    validation are printed. *)
Theorem main_commits_repair (db : Players.table)
        (web : string -> Scrape.response) :
  fst (main db web) = fst (fix_existing_data db)
  /\ (web "bryanko01" = Scrape.BadStatus ->
      snd (main db web)
      = (app (opening_lines db) (scrape_banner "bryanko01"),
         Py.Raise Py.HTTPError)).
Proof.
  rewrite main_unfold. split; [reflexivity|].
  intros Hweb. cbn [snd]. unfold run_tests, opening_lines. rewrite Hweb.
  rewrite prints_eq. unfold Scrape.print. cbn.
  repeat rewrite <- app_assoc. reflexivity.
Qed.

Lemma main_commits_repair_witness :
  snd (main sample_table (fun _ => Scrape.BadStatus))
  = (app (opening_lines sample_table) (scrape_banner "bryanko01"),
     Py.Raise Py.HTTPError).
Proof.
  apply (proj2 (main_commits_repair sample_table
                  (fun _ => Scrape.BadStatus))).
  reflexivity.
Defined.






(* ================================================================== *)
(** ** Where the patterns match *)

Lemma match_at_decompose (pat : Re.pattern) (s g : string) :
  Re.match_at pat s = Some g ->
  exists b a rest,
    s = b ++ g ++ a ++ rest
    /\ spans (Re.before pat) b /\ spans (Re.group pat) g
    /\ spans (Re.after pat) a.
Proof.
  unfold Re.match_at. intros H.
  destruct (run_sound _ _ _ _ H) as [b [s1 [-> [Hb H1]]]].
  destruct (run_sound _ _ _ _ H1) as [m [s2 [-> [Hg H2]]]].
  destruct (run_sound _ _ _ _ H2) as [a [s3 [-> [Ha H3]]]].
  injection H3 as <-. rewrite consumed_append.
  exists b, a, s3. auto.
Qed.

Lemma search_decompose (pat : Re.pattern) (s g : string) :
  Re.search pat s = Some g ->
  exists pre b a rest,
    s = pre ++ b ++ g ++ a ++ rest
    /\ spans (Re.before pat) b /\ spans (Re.group pat) g
    /\ spans (Re.after pat) a.
Proof.
  induction s as [|c s IH]; simpl.
  - destruct (Re.match_at pat "") eqn:E; [|discriminate].
    intros H. injection H as <-.
    destruct (match_at_decompose pat "" _ E) as [b [a [rest H]]].
    now exists "", b, a, rest.
  - destruct (Re.match_at pat (String c s)) eqn:E.
    + intros H. injection H as <-.
      destruct (match_at_decompose pat _ _ E) as [b [a [rest H]]].
      now exists "", b, a, rest.
    + intros H. destruct (IH H) as [pre [b [a [rest [-> Hs]]]]].
      now exists (String c pre), b, a, rest.
Qed.

Lemma spans_marker (w : string) (b : string) :
  spans (Re.Cat (Re.Lit w) (Re.Star Py.isspace true)) b ->
  exists sp, b = w ++ sp /\ all_chars Py.isspace sp = true.
Proof. simpl. intros [m1 [m2 [-> [-> H]]]]. now exists m2. Qed.

Lemma spans_suffix (w : string) (a : string) :
  spans (Re.Cat (Re.Star Py.isword true)
                (Re.Cat (Re.Star Py.isspace true) (Re.Lit w))) a ->
  exists letters sp,
    a = letters ++ sp ++ w
    /\ all_chars Py.isword letters = true
    /\ all_chars Py.isspace sp = true.
Proof.
  simpl. intros [m1 [m2 [-> [H1 [m3 [m4 [-> [H3 ->]]]]]]]].
  now exists m1, m3.
Qed.

(** X17. The patterns of the extractor match only where the text has the
    expected shape: a round (a pick) is a run of digits followed by word
    characters, optional white space and "round" ("pick"); a year is four
    digits followed by optional white space, "NBA", optional white space
    and "Draft"; a team is a non-empty text without line break that
    follows "Draft:" and optional white space and is followed by a comma;
    a shooting hand is a non-empty token without white space that follows
    "Shoots:" and optional white space. *)
Theorem patterns_match_shape (text g : string) :
  (Re.search Re.round_re text = Some g ->
   exists pre letters sp rest,
     text = pre ++ g ++ letters ++ sp ++ "round" ++ rest
     /\ g <> "" /\ all_chars Py.isdigit g = true
     /\ all_chars Py.isword letters = true
     /\ all_chars Py.isspace sp = true)
  /\ (Re.search Re.pick_re text = Some g ->
      exists pre letters sp rest,
        text = pre ++ g ++ letters ++ sp ++ "pick" ++ rest
        /\ g <> "" /\ all_chars Py.isdigit g = true
        /\ all_chars Py.isword letters = true
        /\ all_chars Py.isspace sp = true)
  /\ (Re.search Re.year_re text = Some g ->
      exists pre sp1 sp2 rest,
        text = pre ++ g ++ sp1 ++ "NBA" ++ sp2 ++ "Draft" ++ rest
        /\ String.length g = 4 /\ all_chars Py.isdigit g = true
        /\ all_chars Py.isspace sp1 = true
        /\ all_chars Py.isspace sp2 = true)
  /\ (Re.search Re.draft_team_re text = Some g ->
      exists pre sp rest,
        text = pre ++ "Draft:" ++ sp ++ g ++ "," ++ rest
        /\ g <> "" /\ all_chars Re.dot g = true
        /\ all_chars Py.isspace sp = true)
  /\ (Re.search Re.shoots_re text = Some g ->
      exists pre sp rest,
        text = pre ++ "Shoots:" ++ sp ++ g ++ rest
        /\ g <> "" /\ spaceless g = true
        /\ all_chars Py.isspace sp = true).
Proof.
  split; [|split; [|split; [|split]]]; intros H;
    destruct (search_decompose _ _ _ H)
      as [pre [b [a [rest [-> [Hb [Hg Ha]]]]]]].
  - cbn [Re.round_re Re.before Re.group Re.after] in *.
    simpl in Hb. subst b.
    apply spans_plus_digits in Hg as [Hd Hne].
    apply spans_suffix in Ha as [letters [sp [-> [Hw Hs]]]].
    exists pre, letters, sp, rest.
    split; [now rewrite !append_assoc | auto].
  - cbn [Re.pick_re Re.before Re.group Re.after] in *.
    simpl in Hb. subst b.
    apply spans_plus_digits in Hg as [Hd Hne].
    apply spans_suffix in Ha as [letters [sp [-> [Hw Hs]]]].
    exists pre, letters, sp, rest.
    split; [now rewrite !append_assoc | auto].
  - cbn [Re.year_re Re.before Re.group Re.after] in *.
    simpl in Hb. subst b. destruct Hg as [Hlen Hd].
    simpl in Ha.
    destruct Ha as [sp1 [m [-> [H1 [n1 [m2 [-> [-> [sp2 [d [-> [H2 ->]]]]]]]]]]]].
    exists pre, sp1, sp2, rest.
    split; [now rewrite !append_assoc | auto].
  - cbn [Re.draft_team_re Re.before Re.group Re.after] in *.
    apply spans_marker in Hb as [sp [-> Hs]]. simpl in Ha. subst a.
    exists pre, sp, rest.
    split; [now rewrite !append_assoc|]. repeat split; auto.
    + simpl in Hg. destruct Hg as [m1 [m2 [-> [[Hlen _] _]]]].
      destruct m1; [discriminate | discriminate].
    + simpl in Hg. destruct Hg as [m1 [m2 [-> [[_ H1] H2]]]].
      clear - H1 H2. induction m1 as [|c m1 IH]; simpl in *; [assumption|].
      apply andb_true_iff in H1 as [-> H1]. auto.
  - cbn [Re.shoots_re Re.before Re.group Re.after] in *.
    apply spans_marker in Hb as [sp [-> Hs]]. simpl in Ha. subst a.
    apply spans_token in Hg as [Hsp Hne].
    exists pre, sp, rest.
    split; [now rewrite !append_assoc | auto].
Qed.

Lemma patterns_match_shape_witness :
  exists pre letters sp rest,
    lakers_block = pre ++ "13" ++ letters ++ sp ++ "pick" ++ rest
    /\ "13" <> "" /\ all_chars Py.isdigit "13" = true
    /\ all_chars Py.isword letters = true
    /\ all_chars Py.isspace sp = true.
Proof.
  apply (proj1 (proj2 (patterns_match_shape lakers_block "13"))).
  vm_compute. reflexivity.
Defined.






Lemma distributions_count_rows_witness :
  0 < 2 /\ 2 = count_occ hand_eq_dec (map Players.shoots sample_table)
                         (Some "RightLeft")
             + count_occ hand_eq_dec (map Players.shoots sample_table)
                         (Some "Right") + 0.
Proof.
  destruct (proj1 (proj2 (proj2 (proj1 (distributions_count_rows
                                          (map repaired sample_table))))
                    (Some "Right") 2)) as [Hpos Hn].
  - vm_compute. auto.
  - split; [exact Hpos | vm_compute; reflexivity].
Defined.
